(** * Blog analytics: counter buffering, reconciliation and cached list reads

    A shallow embedding of [apps/blog/tasks.py] and of the list and click
    handlers of [apps/blog/views.py].

    The Python code talks to three external stores: Redis (the pending
    impression counters), the Django cache (result sets of list queries) and
    the relational database (posts, categories and their analytics rows).
    Each handler is modelled as a computation in a state-and-exception monad
    over a [World] holding those three stores; an exception leaves the writes
    done before it in place, as the real stores do. *)

From Stdlib Require Import QArith Qcanon Ascii String.
From stdpp Require Import gmap strings list fin_maps numbers.

Open Scope string_scope.

(** ** Python exceptions *)

(** The exception classes the handlers raise or catch.  All of them derive
    from [Exception], so a bare [except Exception] catches every one;
    [NotFound] is a subclass of [APIException]. *)
Inductive exn : Type :=
| NotFound (detail : string)           (* rest_framework, status 404 *)
| APIException (detail : string)       (* rest_framework, status 500 *)
| DoesNotExist (msg : string)          (* Model.DoesNotExist *)
| ValidationError (msg : string)       (* a lookup value that is no UUID *)
| IntegrityError (msg : string)        (* a row that cannot be created *)
| TypeError (msg : string)
| UnboundLocalError (msg : string)
| AttributeError (msg : string)
| KeyError (msg : string)
| MultipleObjectsReturned (msg : string)
| StoreError (msg : string).           (* redis / cache / database failure *)

(** [str(e)] *)
Definition exn_str (e : exn) : string :=
  match e with
  | NotFound d | APIException d => d
  | DoesNotExist m | ValidationError m | IntegrityError m | TypeError m
  | UnboundLocalError m | AttributeError m | KeyError m
  | MultipleObjectsReturned m | StoreError m => m
  end.

(** The status code the framework answers with when a handler lets the
    exception escape. *)
Definition status_code (e : exn) : Z :=
  match e with
  | NotFound _ => 404
  | _ => 500
  end.

(** ** Data model *)

(** [uuid.UUID] wraps a 128-bit integer. *)
Definition UUID := N.

Record Post := {
  post_id : UUID;
  post_title : string;
  post_description : string;
  post_content : string;
  post_keywords : string;
  post_slug : string;
  post_category_id : UUID;
  post_category_slug : string;
  post_created_at : Z;
  post_updated_at : Z;
}.

Record Category := {
  category_id : UUID;
  category_name : string;
  category_title : string;
  category_description : string;
  category_slug : string;
  category_parent_slug : option string;
  category_created_at : Z;
  category_updated_at : Z;
}.

(** Modelled from the spec: the [PostAnalytics] model of [models.py], which is
    not part of the sources at hand.  The spec's AnalyticsRecord has the
    counters [impressions], [views], [clicks], the average time on page and
    the derived [clickThroughRate].  Python computes the rate with float
    division; the quotient is kept here as an exact rational, which is all
    the freshness properties below depend on. *)
Record PostAnalytics := {
  pa_post : UUID;
  pa_views : Z;
  pa_impressions : Z;
  pa_clicks : Z;
  pa_avg_time_on_page : Qc;
  pa_click_through_rate : Qc;
}.

#[global] Instance Post_eq_dec : EqDecision Post.
Proof. solve_decision. Defined.
#[global] Instance Category_eq_dec : EqDecision Category.
Proof. solve_decision. Defined.
#[global] Instance PostAnalytics_eq_dec : EqDecision PostAnalytics.
Proof. solve_decision. Defined.

(** What the Django cache holds under a key: the evaluated query set that
    [cache.set] was given, in result order. *)
Inductive cached : Type :=
| CachedPosts (posts : list Post)
| CachedCategories (categories : list Category).

(** ** External calls that can fail *)

(** The calls into a store.  [faults w s arg] tells whether the call at
    site [s] with argument [arg] (a key, or a row's id as text) raises. *)
Inductive site : Type :=
| RedisKeys | RedisGet | RedisIncr | RedisDelete
| CacheGet | CacheSet
| DbQuery | DbGetOrCreate | DbSave | DbSaveRate.

Record World := {
  redis : gmap string Z;                  (* pending counters *)
  cache : gmap string (cached * Z);       (* value and expiry time *)
  now : Z;                                (* wall clock, seconds *)
  posts : list Post;                      (* Post.objects *)
  categories : list Category;             (* Category.objects *)
  analytics : gmap UUID PostAnalytics;    (* PostAnalytics.objects, by post *)
  log : list string;                      (* logger / stdout, oldest first *)
  faults : site -> string -> bool;
}.

Definition set_redis (r : gmap string Z) (w : World) : World :=
  {| redis := r; cache := cache w; now := now w; posts := posts w;
     categories := categories w; analytics := analytics w; log := log w;
     faults := faults w |}.

Definition set_cache (c : gmap string (cached * Z)) (w : World) : World :=
  {| redis := redis w; cache := c; now := now w; posts := posts w;
     categories := categories w; analytics := analytics w; log := log w;
     faults := faults w |}.

Definition set_analytics (a : gmap UUID PostAnalytics) (w : World) : World :=
  {| redis := redis w; cache := cache w; now := now w; posts := posts w;
     categories := categories w; analytics := a; log := log w;
     faults := faults w |}.

Definition set_log (l : list string) (w : World) : World :=
  {| redis := redis w; cache := cache w; now := now w; posts := posts w;
     categories := categories w; analytics := analytics w; log := l;
     faults := faults w |}.

(** ** The state-and-exception monad *)

Definition M (A : Type) : Type := World -> (exn + A) * World.

Definition ret {A} (a : A) : M A := fun w => (inr a, w).
Definition raise {A} (e : exn) : M A := fun w => (inl e, w).
Definition bind {A B} (m : M A) (k : A -> M B) : M B :=
  fun w => match m w with
           | (inl e, w') => (inl e, w')
           | (inr a, w') => k a w'
           end.

(** [try: body except Exception as e: handler e] *)
Definition try_except {A} (body : M A) (handler : exn -> M A) : M A :=
  fun w => match body w with
           | (inl e, w') => handler e w'
           | (inr a, w') => (inr a, w')
           end.

Notation "'let!' x ':=' m 'in' k" := (bind m (fun x => k))
  (at level 10, x name, m at level 100, k at level 200).
Notation "'run!' m 'in' k" := (bind m (fun _ => k))
  (at level 10, m at level 100, k at level 200).

(** [for x in xs: body x] *)
Fixpoint for_each {A} (xs : list A) (body : A -> M unit) : M unit :=
  match xs with
  | [] => ret tt
  | x :: xs' => run! body x in for_each xs' body
  end.

(** A store call at [s] on [arg]: raises when the store is failing there. *)
Definition guard (s : site) (arg : string) : M unit :=
  fun w => if faults w s arg
           then (inl (StoreError ("store call failed: " +:+ arg)), w)
           else (inr tt, w).

Definition print (line : string) : M unit :=
  fun w => (inr tt, set_log (log w ++ [line]) w).

(** ** Library functions *)

(** Functions of Python, Django and the REST framework that the handlers
    call and whose code is not part of this repository. *)
Class Runtime := {
  (** [uuid.UUID(s)]; [None] stands for the [ValueError] *)
  uuid_parse : string -> option UUID;
  (** [str(u)] *)
  uuid_str : UUID -> string;
  (** the [field__icontains=needle] lookup *)
  icontains : string -> string -> bool;
  (** [repr] of a list of strings, as an f-string renders it *)
  repr_list : list string -> string;
  (** [qs.order_by(field)] on an evaluated query set *)
  order_posts : string -> list Post -> list Post;
  order_categories : string -> list Category -> list Category;
  (** the row filter of the [Post.postobjects] manager *)
  postobjects_row : Post -> bool;
  (** [str.strip()] *)
  strip : string -> string;
  (** [StandardAPIView.paginate(request, data)], by the page parameter *)
  paginate : forall A : Type, string -> list A -> exn + list A;
}.

(** ** Strings *)

(** [s.split(":")] *)
Fixpoint split_colon (s : string) : list string :=
  match s with
  | EmptyString => [""]
  | String c s' =>
      if Ascii.eqb c ":"%char then "" :: split_colon s'
      else match split_colon s' with
           | seg :: rest => String c seg :: rest
           | [] => [String c EmptyString]
           end
  end.

(** [s.split(":")[-1]] *)
Definition last_segment (s : string) : string := List.last (split_colon s) "". 

(** How an f-string renders a [bytes] key. *)
Definition bytes_repr (key : string) : string := "b'" +:+ key +:+ "'".

(** How an f-string renders an optional query parameter. *)
Definition str_opt (o : option string) : string := default "None" o.

(** The truth value of an optional string in an [if]. *)
Definition truthy (o : option string) : bool :=
  match o with
  | Some s => negb (String.eqb s "")
  | None => false
  end.

(** ** The click-through rate *)

(** Modelled from the spec: the recomputation rule of the AnalyticsRecord,
    [clicks / impressions] when [impressions > 0] and [0] otherwise. *)
Definition ratio (clicks impressions : Z) : Qc :=
  if (0 <? impressions)%Z then (Qc_of_Z clicks / Qc_of_Z impressions)%Qc else 0%Qc.

Definition with_click_through_rate (r : Qc) (a : PostAnalytics) : PostAnalytics :=
  {| pa_post := pa_post a; pa_views := pa_views a;
     pa_impressions := pa_impressions a; pa_clicks := pa_clicks a;
     pa_avg_time_on_page := pa_avg_time_on_page a;
     pa_click_through_rate := r |}.

Definition add_impressions (n : Z) (a : PostAnalytics) : PostAnalytics :=
  {| pa_post := pa_post a; pa_views := pa_views a;
     pa_impressions := (pa_impressions a + n)%Z; pa_clicks := pa_clicks a;
     pa_avg_time_on_page := pa_avg_time_on_page a;
     pa_click_through_rate := pa_click_through_rate a |}.

Definition add_clicks (n : Z) (a : PostAnalytics) : PostAnalytics :=
  {| pa_post := pa_post a; pa_views := pa_views a;
     pa_impressions := pa_impressions a; pa_clicks := (pa_clicks a + n)%Z;
     pa_avg_time_on_page := pa_avg_time_on_page a;
     pa_click_through_rate := pa_click_through_rate a |}.

(** A freshly created row: every counter at its default. *)
Definition new_analytics (u : UUID) : PostAnalytics :=
  {| pa_post := u; pa_views := 0; pa_impressions := 0; pa_clicks := 0;
     pa_avg_time_on_page := 0%Qc; pa_click_through_rate := 0%Qc |}.

(** The rate a row holds is the one its own counters give. *)
Definition ctr_fresh (a : PostAnalytics) : Prop :=
  pa_click_through_rate a = ratio (pa_clicks a) (pa_impressions a).

#[global] Instance ctr_fresh_dec a : Decision (ctr_fresh a).
Proof. unfold ctr_fresh. apply _. Defined.

Section Handlers.
Context `{RT : Runtime}.

(** ** Redis *)

(** [redis_client.incr(key)]: atomic, a missing key counts as 0. *)
Definition redis_incr (key : string) : M Z :=
  run! guard RedisIncr key in
  fun w => let v := (default 0 (redis w !! key) + 1)%Z in
           (inr v, set_redis (<[key := v]> (redis w)) w).

(** [redis_client.get(key)]: [None] when the key is absent. *)
Definition redis_get (key : string) : M (option Z) :=
  run! guard RedisGet key in
  fun w => (inr (redis w !! key), w).

(** [redis_client.delete(key)] *)
Definition redis_delete (key : string) : M unit :=
  run! guard RedisDelete key in
  fun w => (inr tt, set_redis (delete key (redis w)) w).

(** [redis_client.keys(prefix + "*")] *)
Definition redis_keys (prefix : string) : M (list string) :=
  run! guard RedisKeys prefix in
  fun w => (inr (filter (fun k => String.prefix prefix k = true)
                        (fst <$> map_to_list (redis w))), w).

(** [int(v)] on what [get] returned. *)
Definition py_int (v : option Z) : M Z :=
  match v with
  | Some n => ret n
  | None => raise (TypeError "int() argument must be a string, a bytes-like object or a real number, not 'NoneType'")
  end.

(** ** The analytics table *)

(** Writing the in-memory row [a] to the table; [s] names the call. *)
Definition save_at (s : site) (a : PostAnalytics) : M unit :=
  run! guard s (uuid_str (pa_post a)) in
  fun w => (inr tt, set_analytics (<[pa_post a := a]> (analytics w)) w).

(** [analytics.save()] as the handlers call it. *)
Definition save (a : PostAnalytics) : M unit := save_at DbSave a.

(** Modelled from the spec: get-or-create of the analytics row of a post
    ([models.py] and the manager are not part of the sources at hand): the
    row is returned when it exists; otherwise it is created with zero
    counters, which fails when the entity is missing. *)
Definition get_or_create (u : UUID) : M PostAnalytics :=
  run! guard DbGetOrCreate (uuid_str u) in
  fun w => match analytics w !! u with
           | Some a => (inr a, w)
           | None =>
               if bool_decide (u ∈ post_id <$> posts w)
               then (inr (new_analytics u),
                     set_analytics (<[u := new_analytics u]> (analytics w)) w)
               else (inl (IntegrityError "no such post"), w)
           end.

(** [PostAnalytics.objects.get_or_create(post__id=post_id)] with the id as
    text: a text that is no UUID is refused by the lookup. *)
Definition get_or_create_by_post_id (post_id_text : string) : M PostAnalytics :=
  match uuid_parse post_id_text with
  | Some u => get_or_create u
  | None => raise (ValidationError (post_id_text +:+ " is not a valid UUID."))
  end.

(** Modelled from the spec: [_update_click_through_rate] of [models.py]
    (not part of the sources at hand): recompute the rate from the row's
    current counters and persist. *)
Definition _update_click_through_rate (a : PostAnalytics) : M PostAnalytics :=
  let a := with_click_through_rate (ratio (pa_clicks a) (pa_impressions a)) a in
  run! save_at DbSaveRate a in
  ret a.


(** Modelled from the spec: [increment_click] of [models.py] (not part of the
    sources at hand): add 1 to [clicks], recompute the rate, persist. *)
Definition increment_click (a : PostAnalytics) : M PostAnalytics :=
  _update_click_through_rate (add_clicks 1 a).

(** ** tasks.py *)


(** Line 48 of the loop body of [sync_impressions_to_db]: read the pending
    delta of [key]. *)
Definition sync_read (key : string) : M Z :=
  let! v := redis_get key in
  py_int v.

(** Lines 47 and 50-52: save the row of the post named by [key] with the
    delta added. *)
Definition sync_save_delta (key : string) (impressions : Z) : M PostAnalytics :=
  let post_id_text := last_segment key in
  let! analytics := get_or_create_by_post_id post_id_text in
  let analytics := add_impressions impressions analytics in
  run! save analytics in
  ret analytics.

(** Lines 47-52 *)
Definition sync_apply_delta (key : string) : M PostAnalytics :=
  let! impressions := sync_read key in
  sync_save_delta key impressions.

(** Lines 47-54: the whole update of the analytics row for [key]. *)
Definition sync_update (key : string) : M PostAnalytics :=
  let! analytics := sync_apply_delta key in
  _update_click_through_rate analytics.

(** The line the [except] clause prints. *)
Definition sync_error_line (key : string) (e : exn) : string :=
  "Error syncing impressions for " +:+ bytes_repr key +:+ ": " +:+ exn_str e.

(** The body of the loop of [sync_impressions_to_db] for one key. *)
Definition sync_key (key : string) : M unit :=
  try_except
    (let! analytics := sync_update key in
     redis_delete key)
    (fun e => print (sync_error_line key e)).

(** [sync_impressions_to_db()] *)
Definition sync_impressions_to_db : M unit :=
  let! keys := redis_keys "post:impressions:" in
  for_each keys sync_key.

(** ** The Django cache *)

(** The entry the cache answers with under [key] at the world's time: the
    value, unless there is none or it has expired. *)
Definition cache_lookup (key : string) (w : World) : option cached :=
  match cache w !! key with
  | Some (v, expires) => if (now w <? expires)%Z then Some v else None
  | None => None
  end.

(** [cache.get(key)] *)
Definition cache_get (key : string) : M (option cached) :=
  run! guard CacheGet key in
  fun w => (inr (cache_lookup key w), w).

(** [cache.set(key, value, timeout=timeout)] *)
Definition cache_set (key : string) (v : cached) (timeout : Z) : M unit :=
  run! guard CacheSet key in
  fun w => (inr tt, set_cache (<[key := (v, (now w + timeout)%Z)]> (cache w)) w).

(** A call of a library function that answers or raises. *)
Definition lift {A} (r : exn + A) : M A := fun w => (r, w).

(** ** views.py *)

(** The query parameters of a list request, as sent ([None]: not sent). *)
Record ListRequest := {
  q_search : option string;
  q_sorting : option string;
  q_ordering : option string;
  q_category : list string;
  q_parent_slug : option string;
  q_p : option string;
}.

(** What a handler returns. *)
Inductive response : Type :=
| PostPage (data : list Post)                  (* self.paginate(request, posts) *)
| CategoryPage (data : list Category)          (* self.paginate(request, categories) *)
| ClickResponse (message : string) (clicks : Z).

(** Django's [Q] objects, as far as [PostListView] builds them. *)
Inductive Q : Type :=
| Q_empty                                  (* Q() *)
| Q_category_id (token : string)           (* Q(category__id=token) *)
| Q_category_slug (token : string)         (* Q(category__slug=token) *)
| Q_or (a b : Q).

(** [a | b]: an empty operand is dropped. *)
Definition q_or (a b : Q) : Q :=
  match a, b with
  | Q_empty, _ => b
  | _, Q_empty => a
  | _, _ => Q_or a b
  end.

(** Whether a row passes [filter(q)]; the id lookup compares UUID values. *)
Fixpoint q_holds (q : Q) (p : Post) : bool :=
  match q with
  | Q_empty => true
  | Q_category_id token =>
      match uuid_parse token with
      | Some u => bool_decide (post_category_id p = u)
      | None => false
      end
  | Q_category_slug token => String.eqb (post_category_slug p) token
  | Q_or a b => q_holds a p || q_holds b p
  end.

(** Lines 68-81: the loop over the category tokens, from the [Q] built so
    far. *)
Fixpoint category_queries_from (acc : Q) (tokens : list string) : Q :=
  match tokens with
  | [] => acc
  | category :: rest =>
      category_queries_from
        (match uuid_parse category with
         | Some _ => q_or acc (Q_category_id category)
         | None => q_or acc (Q_category_slug category)
         end) rest
  end.

Definition category_queries (tokens : list string) : Q :=
  category_queries_from Q_empty tokens.

(** Lines 59-64: the free-text search over a post. *)
Definition post_matches_search (search : string) (p : Post) : bool :=
  icontains (post_title p) search || icontains (post_description p) search
  || icontains (post_content p) search || icontains (post_keywords p) search.

(** Lines 57-82: the search filter and the category filter of
    [PostListView.get], applied to the rows of the initial query. *)
Definition post_list_filter (search : string) (tokens : list string)
    (rows : list Post) : list Post :=
  let posts := rows in
  let posts :=
    if negb (String.eqb search "")
    then List.filter (post_matches_search search) posts else posts in
  let posts :=
    match tokens with
    | [] => posts
    | _ => List.filter (q_holds (category_queries tokens)) posts
    end in
  posts.

(** Lines 84-97: the orderings. *)
Definition post_list_order (sorting ordering : option string)
    (posts : list Post) : list Post :=
  let posts :=
    if truthy sorting then
      if bool_decide (sorting = Some "newest") then order_posts "-created_at" posts
      else if bool_decide (sorting = Some "recently_updated") then order_posts "-updated_at" posts
      else if bool_decide (sorting = Some "most_viewed") then order_posts "-popularity" posts
      else posts
    else posts in
  let posts :=
    if truthy ordering then
      let posts := if bool_decide (ordering = Some "az") then order_posts "title" posts else posts in
      if bool_decide (ordering = Some "za") then order_posts "-title" posts else posts
    else posts in
  posts.

(** Lines 57-97 *)
Definition post_list_query (search : string) (sorting ordering : option string)
    (tokens : list string) (rows : list Post) : list Post :=
  post_list_order sorting ordering (post_list_filter search tokens rows).

Definition post_search (req : ListRequest) : string := strip (default "" (q_search req)).
Definition request_page (req : ListRequest) : string := default "1" (q_p req).

(** Line 39 *)
Definition post_list_cache_key (req : ListRequest) : string :=
  "post_list:" +:+ post_search req +:+ ":" +:+ str_opt (q_sorting req) +:+ ":"
  +:+ str_opt (q_ordering req) +:+ ":" +:+ repr_list (q_category req) +:+ ":"
  +:+ request_page req.

Definition post_impressions_key (p : Post) : string :=
  "post:impressions:" +:+ uuid_str (post_id p).

Definition category_impressions_key (c : Category) : string :=
  "category:impressions:" +:+ uuid_str (category_id c).

(** [for post in posts: redis_client.incr(f"post:impressions:{post.id}")] *)
Definition incr_post_impressions (l : list Post) : M unit :=
  for_each l (fun post => run! redis_incr (post_impressions_key post) in ret tt).

Definition incr_category_impressions (l : list Category) : M unit :=
  for_each l (fun category => run! redis_incr (category_impressions_key category) in ret tt).

(** [Post.postobjects.all()], evaluated. *)
Definition postobjects_all : M (list Post) :=
  run! guard DbQuery "post" in
  fun w => (inr (List.filter postobjects_row (posts w)), w).

(** The [try] block of [PostListView.get]. *)
Definition PostListView_get_body (req : ListRequest) : M response :=
  let search := post_search req in
  let sorting := q_sorting req in
  let ordering := q_ordering req in
  let categories := q_category req in
  let page := request_page req in
  let cache_key := post_list_cache_key req in
  let! cached_posts := cache_get cache_key in
  match cached_posts with
  | Some (CachedPosts ((_ :: _) as cached_posts)) =>
      let serialized_posts := cached_posts in
      run! incr_post_impressions cached_posts in
      let! data := lift (paginate Post page serialized_posts) in
      ret (PostPage data)
  | Some (CachedCategories (_ :: _)) =>
      raise (AttributeError "'Category' object has no attribute of a post")
  | _ =>
      let! posts := postobjects_all in
      match posts with
      | [] => raise (NotFound "No posts found.")
      | _ =>
          let posts := post_list_query search sorting ordering categories posts in
          run! cache_set cache_key (CachedPosts posts) (60 * 5) in
          let serialized_posts := posts in
          run! incr_post_impressions posts in
          let! data := lift (paginate Post page serialized_posts) in
          ret (PostPage data)
      end
  end.

(** [PostListView.get]: every exception of the block is re-raised as an
    [APIException]. *)
Definition PostListView_get (req : ListRequest) : M response :=
  try_except (PostListView_get_body req)
    (fun e => raise (APIException ("An unexpected error occurred: " +:+ exn_str e))).

(** Lines 226-231 *)
Definition category_matches_search (search : string) (c : Category) : bool :=
  icontains (category_name c) search || icontains (category_slug c) search
  || icontains (category_title c) search || icontains (category_description c) search.

(** Line 200 *)
Definition category_list_cache_key (req : ListRequest) : string :=
  "category_list:" +:+ request_page req +:+ ":" +:+ str_opt (q_ordering req) +:+ ":"
  +:+ str_opt (q_sorting req) +:+ ":" +:+ post_search req +:+ ":"
  +:+ str_opt (q_parent_slug req).

(** Lines 211-219: the children of [parent_slug], or the root categories. *)
Definition category_rows (parent_slug : option string) (w : World) : list Category :=
  if truthy parent_slug
  then List.filter (fun c => bool_decide (category_parent_slug c = parent_slug))
         (categories w)
  else List.filter (fun c => bool_decide (category_parent_slug c = None))
         (categories w).

Definition categories_initial (parent_slug : option string) : M (list Category) :=
  run! guard DbQuery "category" in
  fun w => (inr (category_rows parent_slug w), w).

(** Reading the local [posts] in [CategoryListView.get], where nothing
    assigns it before the read. *)
Definition unbound_posts {A} : M A :=
  raise (UnboundLocalError
           "cannot access local variable 'posts' where it is not associated with a value").

(** The [try] block of [CategoryListView.get]. *)
Definition CategoryListView_get_body (req : ListRequest) : M response :=
  let parent_slug := q_parent_slug req in
  let ordering := q_ordering req in
  let sorting := q_sorting req in
  let search := post_search req in
  let page := request_page req in
  let cache_key := category_list_cache_key req in
  let! cached_categories := cache_get cache_key in
  match cached_categories with
  | Some (CachedCategories ((_ :: _) as cached_categories)) =>
      let serialized_categories := cached_categories in
      run! incr_category_impressions cached_categories in
      let! data := lift (paginate Category page serialized_categories) in
      ret (CategoryPage data)
  | Some (CachedPosts (_ :: _)) =>
      raise (AttributeError "'Post' object has no attribute of a category")
  | _ =>
      let! categories := categories_initial parent_slug in
      match categories with
      | [] => raise (NotFound "No categories found.")
      | _ =>
          let categories :=
            if negb (String.eqb search "")
            then List.filter (category_matches_search search) categories
            else categories in
          let categories :=
            if truthy sorting then
              if bool_decide (sorting = Some "newest") then order_categories "-created_at" categories
              else if bool_decide (sorting = Some "recently_updated") then order_categories "-updated_at" categories
              else if bool_decide (sorting = Some "most_viewed") then order_categories "-popularity" categories
              else categories
            else categories in
          run! (if truthy ordering then
                  run! (if bool_decide (ordering = Some "az") then unbound_posts else ret tt) in
                  if bool_decide (ordering = Some "za") then unbound_posts else ret tt
                else ret tt) in
          run! cache_set cache_key (CachedCategories categories) (60 * 5) in
          let serialized_categories := categories in
          run! incr_category_impressions categories in
          let! data := lift (paginate Category page serialized_categories) in
          ret (CategoryPage data)
      end
  end.

Definition CategoryListView_get (req : ListRequest) : M response :=
  try_except (CategoryListView_get_body req)
    (fun e => raise (APIException ("An unexpected error occurred: " +:+ exn_str e))).

(** [Post.postobjects.get(slug=slug)] *)
Definition postobjects_get_by_slug (slug : string) : M Post :=
  let! rows := postobjects_all in
  match List.filter (fun p => String.eqb (post_slug p) slug) rows with
  | [] => raise (DoesNotExist "Post matching query does not exist.")
  | [post] => ret post
  | _ => raise (MultipleObjectsReturned "get() returned more than one Post")
  end.

(** [IncrementPostClickView.post]; [slug] is [request.data['slug']], [None]
    when the body has no such field. *)
Definition IncrementPostClickView_post (slug : option string) : M response :=
  let! post :=
    (fun w => match (match slug with
                     | Some slug => postobjects_get_by_slug slug
                     | None => raise (KeyError "'slug'")
                     end) w with
              | (inl (DoesNotExist _), w') =>
                  (inl (NotFound "The requested post does not exist"), w')
              | r => r
              end) in
  let! post_analytics :=
    try_except
      (let! post_analytics := get_or_create (post_id post) in
       increment_click post_analytics)
      (fun e => raise (APIException ("An error ocurred while updating post analytics: "
                                     +:+ exn_str e))) in
  ret (ClickResponse "Click incremented successfully" (pa_clicks post_analytics)).

(** ** Request workers running beside the reconciliation job

    Redis executes one command at a time and the database one statement at a
    time, so a run of the job beside request workers is an interleaving of
    these atomic steps on the counter of one key: a worker's [incr]
    (views.py, line 107), and the job's [get] (tasks.py, line 48), its
    update of the row (lines 50-54) and its [delete] (line 56). *)

Inductive event : Type :=
| WorkerIncr
| JobGet
| JobUpdate
| JobDelete.

(** Where the job stands in the loop body. *)
Inductive job_pc : Type :=
| JobIdle
| JobHasRead (impressions : Z)
| JobHasUpdated.

(** What the [except] clause of the loop body does with the outcome of a
    step: on an exception print the line and leave the body. *)
Definition job_outcome {A} (key : string) (next : A -> job_pc)
    (r : (exn + A) * World) : job_pc * World :=
  match r with
  | (inr a, w') => (next a, w')
  | (inl e, w') => (JobIdle, snd (print (sync_error_line key e) w'))
  end.

(** One atomic step; a step of the job that is not its next one is no step. *)
Definition step (key : string) (ev : event) (st : job_pc * World) : job_pc * World :=
  let '(pc, w) := st in
  match ev, pc with
  | WorkerIncr, _ => (pc, snd (redis_incr key w))
  | JobGet, JobIdle => job_outcome key JobHasRead (sync_read key w)
  | JobUpdate, JobHasRead impressions =>
      job_outcome key (fun _ => JobHasUpdated)
        ((let! analytics := sync_save_delta key impressions in
          _update_click_through_rate analytics) w)
  | JobDelete, JobHasUpdated => job_outcome key (fun _ => JobIdle) (redis_delete key w)
  | _, _ => st
  end.

Definition run_schedule (key : string) (evs : list event) (st : job_pc * World)
  : job_pc * World :=
  foldl (fun st ev => step key ev st) st evs.

(** The increments the workers issued in a schedule. *)
Definition increments (evs : list event) : Z :=
  Z.of_nat (length (List.filter (fun ev => match ev with WorkerIncr => true | _ => false end) evs)).

(** The impressions a row holds, 0 when there is no row. *)
Definition drained (u : UUID) (w : World) : Z :=
  match analytics w !! u with
  | Some a => pa_impressions a
  | None => 0%Z
  end.

(** The delta still waiting under [key]. *)
Definition pending (key : string) (w : World) : Z := default 0%Z (redis w !! key).

(** The counters after [incr] on each of [keys] in turn. *)
Definition incr_all (keys : list string) (r : gmap string Z) : gmap string Z :=
  foldl (fun r key => <[key := (default 0 (r !! key) + 1)%Z]> r) r keys.

(** A token of the category filter matches a post: by category id when the
    token parses as an identifier, by category slug when it does not. *)
Definition token_matches (token : string) (p : Post) : Prop :=
  match uuid_parse token with
  | Some u => post_category_id p = u
  | None => post_category_slug p = token
  end.

(** The keys [redis_client.keys("post:impressions:*")] answers with. *)
Definition pending_post_keys (w : World) : list string :=
  filter (fun k => String.prefix "post:impressions:" k = true)
         (fst <$> map_to_list (redis w)).

(** What a list handler answers once its data went through [paginate]: the
    page, or the re-raised exception. *)
Definition page_answer {A} (wrap : list A -> response) (r : exn + list A)
  : exn + response :=
  match r with
  | inr data => inr (wrap data)
  | inl e => inl (APIException ("An unexpected error occurred: " +:+ exn_str e))
  end.

(** The result set of a request on the rows of the manager. *)
Definition post_list_result (req : ListRequest) (w : World) : list Post :=
  post_list_query (post_search req) (q_sorting req) (q_ordering req)
    (q_category req) (List.filter postobjects_row (posts w)).

(** The handler's test [if cached_categories:] fails: the cache answers with
    no non-empty list of categories. *)
Definition category_list_misses (req : ListRequest) (w : World) : Prop :=
  forall c l, cache_lookup (category_list_cache_key req) w
              ≠ Some (CachedCategories (c :: l)).

(** No store call fails. *)
Definition healthy (w : World) : Prop := forall s arg, faults w s arg = false.

(** Every analytics row holds the rate of its own counters. *)
Definition rates_fresh (w : World) : Prop :=
  forall u a, analytics w !! u = Some a -> ctr_fresh a.

End Handlers.

(** ** A concrete runtime and concrete worlds

    Used to run the handlers on explicit inputs. *)

Module Demo.

Local Open Scope Z_scope.

Definition demo_uuid_str (u : UUID) : string :=
  match u with
  | 1%N => "1" | 2%N => "2" | 3%N => "3" | 4%N => "4" | _ => "0"
  end.

Definition demo_uuid_parse (s : string) : option UUID :=
  if String.eqb s "0" then Some 0%N
  else if String.eqb s "1" then Some 1%N
  else if String.eqb s "2" then Some 2%N
  else if String.eqb s "3" then Some 3%N
  else if String.eqb s "4" then Some 4%N
  else None.

(** Case-sensitive here; enough for the inputs below. *)
Fixpoint demo_contains (haystack needle : string) : bool :=
  String.prefix needle haystack
  || match haystack with
     | EmptyString => false
     | String _ rest => demo_contains rest needle
     end.

#[export] Instance demo_runtime : Runtime := {|
  uuid_parse := demo_uuid_parse;
  uuid_str := demo_uuid_str;
  icontains := demo_contains;
  repr_list := fun l => "[" +:+ String.concat ", " l +:+ "]";
  order_posts := fun _ l => l;
  order_categories := fun _ l => l;
  postobjects_row := fun _ => true;
  strip := fun s => s;
  paginate := fun A _ l => inr l;
|}.

Definition no_faults : site -> string -> bool := fun _ _ => false.

(** The database refuses the write of a recomputed rate. *)
Definition rate_write_fails : site -> string -> bool :=
  fun s _ => match s with DbSaveRate => true | _ => false end.

(** Redis refuses every [incr]. *)
Definition incr_fails : site -> string -> bool :=
  fun s _ => match s with RedisIncr => true | _ => false end.

Definition hello : Post := {|
  post_id := 1%N; post_title := "Hello"; post_description := "first post";
  post_content := "text"; post_keywords := "intro"; post_slug := "hello";
  post_category_id := 3%N; post_category_slug := "fiction";
  post_created_at := 10; post_updated_at := 20 |}.

Definition second : Post := {|
  post_id := 2%N; post_title := "Second"; post_description := "another post";
  post_content := "more text"; post_keywords := "misc"; post_slug := "second";
  post_category_id := 4%N; post_category_slug := "essays";
  post_created_at := 30; post_updated_at := 40 |}.

(** [hello] after an edit of its title. *)
Definition hello_renamed : Post := {|
  post_id := 1%N; post_title := "Hello again"; post_description := "first post";
  post_content := "text"; post_keywords := "intro"; post_slug := "hello";
  post_category_id := 3%N; post_category_slug := "fiction";
  post_created_at := 10; post_updated_at := 50 |}.

(** A post published later. *)
Definition news : Post := {|
  post_id := 4%N; post_title := "News"; post_description := "what is new";
  post_content := "text"; post_keywords := "news"; post_slug := "news";
  post_category_id := 3%N; post_category_slug := "fiction";
  post_created_at := 1100; post_updated_at := 1100 |}.

Definition fiction : Category := {|
  category_id := 3%N; category_name := "Fiction"; category_title := "Fiction";
  category_description := "stories"; category_slug := "fiction";
  category_parent_slug := None;
  category_created_at := 1; category_updated_at := 2 |}.

Definition empty_world : World := {|
  redis := ∅; cache := ∅; now := 1000; posts := []; categories := [];
  analytics := ∅; log := []; faults := no_faults |}.

Definition with_posts (l : list Post) (w : World) : World :=
  {| redis := redis w; cache := cache w; now := now w; posts := l;
     categories := categories w; analytics := analytics w; log := log w;
     faults := faults w |}.

Definition with_categories (l : list Category) (w : World) : World :=
  {| redis := redis w; cache := cache w; now := now w; posts := posts w;
     categories := l; analytics := analytics w; log := log w;
     faults := faults w |}.

Definition with_faults (f : site -> string -> bool) (w : World) : World :=
  {| redis := redis w; cache := cache w; now := now w; posts := posts w;
     categories := categories w; analytics := analytics w; log := log w;
     faults := f |}.

Definition with_now (t : Z) (w : World) : World :=
  {| redis := redis w; cache := cache w; now := t; posts := posts w;
     categories := categories w; analytics := analytics w; log := log w;
     faults := faults w |}.

(** A blog with two published posts and one category. *)
Definition blog : World :=
  with_categories [fiction] (with_posts [hello; second] empty_world).

(** The analytics row of [hello] after one impression and one click. *)
Definition hello_row : PostAnalytics := {|
  pa_post := 1%N; pa_views := 0; pa_impressions := 1; pa_clicks := 1;
  pa_avg_time_on_page := 0%Qc; pa_click_through_rate := 1%Qc |}.

(** [blog] with that row and one more impression of [hello] pending. *)
Definition blog_pending : World :=
  set_redis {[ "post:impressions:1" := 1%Z ]}
    (set_analytics {[ 1%N := hello_row ]} blog).


(** [blog] with a Redis that refuses [incr]. *)
Definition blog_redis_down : World := with_faults incr_fails blog.

(** [blog_pending] with a second pending key, whose last segment names no
    post. *)
Definition blog_two_pending : World :=
  set_redis {[ "post:impressions:1" := 1%Z; "post:impressions:gone" := 5%Z ]}
    blog_pending.

Definition plain_request : ListRequest := {|
  q_search := None; q_sorting := None; q_ordering := None; q_category := [];
  q_parent_slug := None; q_p := None |}.

Definition search_request (text : string) : ListRequest := {|
  q_search := Some text; q_sorting := None; q_ordering := None; q_category := [];
  q_parent_slug := None; q_p := None |}.

(** [blog] after a search for [News] found nothing and cached that, and
    [news] was published 100 seconds later. *)
Definition blog_after_empty_search : World :=
  with_posts [hello; second; news]
    (with_now 1100 (snd (PostListView_get (search_request "News") blog))).

Definition ordering_request (o : string) : ListRequest := {|
  q_search := None; q_sorting := None; q_ordering := Some o; q_category := [];
  q_parent_slug := None; q_p := None |}.

Definition category_request (tokens : list string) : ListRequest := {|
  q_search := None; q_sorting := None; q_ordering := None; q_category := tokens;
  q_parent_slug := None; q_p := None |}.

End Demo.

(** * The other handlers and tasks

    The detail handlers of [views.py], the analytics generator, and the task
    that counts views.  Two collaborators of these are not in the sources at
    hand: Celery's [delay], which puts a task call on the broker, and the
    method [increment_view] of [models.py].  Both are taken as parameters, so
    what is proved holds whatever they do. *)

Section MoreHandlers.
Context `{RT : Runtime}.

(** What the handlers of this part return. *)
Inductive reply : Type :=
| Reply (r : response)                  (* a response of the first part *)
| PostDetail (post : Post)              (* self.response(serialized_post) *)
| ErrorReply (message : string)         (* self.error(message) *)
| BadRequest (message : string)         (* self.response({"error": message}, status=400) *)
| Generated (posts_count : nat).        (* "Analíticas generadas para {n} posts." *)

(** ** PostDetailView *)

(** Line 127 *)
Definition post_detail_cache_key (slug : string) : string := "post_detail:" +:+ slug.

(** The [try] block of [PostDetailView.get].  The one object that
    [cache.set] stores under a detail key is kept as the one-element list;
    [delay] is [increment_post_views_task.delay]. *)
Definition PostDetailView_get_body (delay : string -> string -> M unit)
    (ip_address slug : string) : M reply :=
  let! cached_post := cache_get (post_detail_cache_key slug) in
  match cached_post with
  | Some (CachedPosts [cached_post]) =>
      let serialized_post := cached_post in
      run! delay (post_slug cached_post) ip_address in
      ret (PostDetail serialized_post)
  | Some _ =>
      raise (AttributeError "the cached value is not a post")
  | None =>
      let! post := postobjects_get_by_slug slug in
      let serialized_post := post in
      run! cache_set (post_detail_cache_key slug) (CachedPosts [post]) (60 * 5) in
      run! delay (post_slug post) ip_address in
      ret (PostDetail serialized_post)
  end.

(** [PostDetailView.get]; [ip_address] is what [get_client_ip(request)]
    answered, [slug] the query parameter. *)
Definition PostDetailView_get (delay : string -> string -> M unit)
    (ip_address : string) (slug : option string) : M reply :=
  if negb (truthy slug) then raise (NotFound "A valid slug must be provided")
  else
    fun w => match PostDetailView_get_body delay ip_address (default "" slug) w with
             | (inl (DoesNotExist _), w') =>
                 (inl (NotFound "The requested post does not exist"), w')
             | (inl e, w') =>
                 (inl (APIException ("An unexpected error occurred: " +:+ exn_str e)), w')
             | (inr r, w') => (inr r, w')
             end.

(** ** increment_post_views_task *)

(** [Post.objects.get(slug=slug)]: every post, published or not. *)
Definition objects_get_by_slug (slug : string) : M Post :=
  run! guard DbQuery "post" in
  fun w => match List.filter (fun p => String.eqb (post_slug p) slug) (posts w) with
           | [] => (inl (DoesNotExist "Post matching query does not exist."), w)
           | [post] => (inr post, w)
           | _ => (inl (MultipleObjectsReturned "get() returned more than one Post"), w)
           end.

(** [increment_post_views_task(slug, ip_address)]; [increment_view] is the
    method of [PostAnalytics]. *)
Definition increment_post_views_task
    (increment_view : PostAnalytics -> string -> M unit)
    (slug ip_address : string) : M unit :=
  try_except
    (let! post := objects_get_by_slug slug in
     let! post_analytics := get_or_create (post_id post) in
     increment_view post_analytics ip_address)
    (fun e => print ("Error incrementing views for Post slug " +:+ slug
                     +:+ ": " +:+ exn_str e)).

(** ** CategoryDetailView *)

(** Line 277 *)
Definition category_posts_cache_key (slug page : string) : string :=
  "category_posts:" +:+ slug +:+ ":" +:+ page.

(** [get_object_or_404(Category, slug=slug)].  It raises [Http404], which the
    REST framework treats as its [NotFound]. *)
Definition get_category_or_404 (slug : string) : M Category :=
  run! guard DbQuery "category" in
  fun w => match List.filter (fun c => String.eqb (category_slug c) slug)
                   (categories w) with
           | [] => (inl (NotFound "No Category matches the given query."), w)
           | [category] => (inr category, w)
           | _ => (inl (MultipleObjectsReturned "get() returned more than one Category"), w)
           end.

(** The rows of [Post.postobjects.filter(category=category)]. *)
Definition posts_of_category (category : Category) (w : World) : list Post :=
  List.filter (fun p => bool_decide (post_category_id p = category_id category))
    (List.filter postobjects_row (posts w)).

Definition category_postobjects (category : Category) : M (list Post) :=
  run! guard DbQuery "post" in
  fun w => (inr (posts_of_category category w), w).

(** The [try] block of [CategoryDetailView.get]. *)
Definition CategoryDetailView_get_body (slug p : option string) : M reply :=
  let page := default "1" p in
  if negb (truthy slug) then ret (ErrorReply "Missing slug parameter")
  else
    let slug := default "" slug in
    let cache_key := category_posts_cache_key slug page in
    let! cached_posts := cache_get cache_key in
    match cached_posts with
    | Some (CachedPosts ((_ :: _) as cached_posts)) =>
        let serialized_posts := cached_posts in
        run! incr_post_impressions cached_posts in
        let! data := lift (paginate Post page serialized_posts) in
        ret (Reply (PostPage data))
    | Some (CachedCategories (_ :: _)) =>
        raise (AttributeError "'Category' object has no attribute of a post")
    | _ =>
        let! category := get_category_or_404 slug in
        let! posts := category_postobjects category in
        match posts with
        | [] => raise (NotFound ("No posts found for category '"
                                 +:+ category_name category +:+ "'"))
        | _ =>
            run! cache_set cache_key (CachedPosts posts) (60 * 5) in
            let serialized_posts := posts in
            run! incr_post_impressions posts in
            let! data := lift (paginate Post page serialized_posts) in
            ret (Reply (PostPage data))
        end
    end.

(** [CategoryDetailView.get] *)
Definition CategoryDetailView_get (slug p : option string) : M reply :=
  try_except (CategoryDetailView_get_body slug p)
    (fun e => raise (APIException ("An unexpected error occurred: " +:+ exn_str e))).

(** ** GenerateFakeAnalyticsView *)

(** What the random generator answers for one post: [random.randint(50, 1000)],
    [random.randint(100, 2000)], [random.randint(0, views)] and the rounded
    [random.uniform(10, 300)]. *)
Record Draw := {
  draw_views : Z;
  draw_extra : Z;
  draw_clicks : Z;
  draw_avg_time : Qc;
}.

(** The ranges [random.randint] keeps to. *)
Definition draw_in_range (d : Draw) : Prop :=
  (50 <= draw_views d <= 1000)%Z
  ∧ (100 <= draw_extra d <= 2000)%Z
  ∧ (0 <= draw_clicks d <= draw_views d)%Z.

(** Lines 393-396: the four assignments. *)
Definition set_counters (d : Draw) (a : PostAnalytics) : PostAnalytics :=
  {| pa_post := pa_post a;
     pa_views := draw_views d;
     pa_impressions := (draw_views d + draw_extra d)%Z;
     pa_clicks := draw_clicks d;
     pa_avg_time_on_page := draw_avg_time d;
     pa_click_through_rate := pa_click_through_rate a |}.

(** Lines 386-398: the loop body. *)
Definition generate_analytics (rng : Post -> Draw) (post : Post) : M unit :=
  let! analytics := get_or_create (post_id post) in
  let analytics := set_counters (rng post) analytics in
  let! analytics := _update_click_through_rate analytics in
  save analytics.

(** [Post.objects.all()], evaluated. *)
Definition objects_all : M (list Post) :=
  run! guard DbQuery "post" in
  fun w => (inr (posts w), w).

(** [GenerateFakeAnalyticsView.get] *)
Definition GenerateFakeAnalyticsView_get (rng : Post -> Draw) : M reply :=
  let! posts := objects_all in
  match posts with
  | [] => ret (BadRequest "No hay posts disponibles para generar analíticas")
  | _ =>
      run! for_each posts (generate_analytics rng) in
      ret (Generated (length posts))
  end.

(** ** Notions used in the statements *)

(** The post whose row the job updates for [key]. *)
Definition key_post (key : string) : option UUID := uuid_parse (last_segment key).

(** The key under which the list handlers count the impressions of post [u]. *)
Definition impressions_key_of (u : UUID) : string :=
  "post:impressions:" +:+ uuid_str u.




(** Every row of the analytics table is stored under its own post. *)
Definition table_keyed (w : World) : Prop :=
  map_Forall (fun u a => pa_post a = u) (analytics w).

(** A text without a colon. *)
Fixpoint no_colon (s : string) : bool :=
  match s with
  | EmptyString => true
  | String c s' => negb (Ascii.eqb c ":"%char) && no_colon s'
  end.





Definition colon_in_sorting (a b c : string) (req : ListRequest) : ListRequest :=
  {| q_search := Some a; q_sorting := Some (b +:+ ":" +:+ c);
     q_ordering := q_ordering req; q_category := q_category req;
     q_parent_slug := q_parent_slug req; q_p := q_p req |}.

(** The clicks a row holds, 0 when there is no row. *)
Definition drained_clicks (u : UUID) (w : World) : Z :=
  match analytics w !! u with
  | Some a => pa_clicks a
  | None => 0%Z
  end.

(** The row a click leaves for post [u]. *)
Definition clicked_row (u : UUID) (w : World) : PostAnalytics :=
  let a := add_clicks 1 (default (new_analytics u) (analytics w !! u)) in
  with_click_through_rate (ratio (pa_clicks a) (pa_impressions a)) a.

(** The published posts with a given slug. *)
Definition published_with_slug (slug : string) (w : World) : list Post :=
  List.filter (fun p => String.eqb (post_slug p) slug)
    (List.filter postobjects_row (posts w)).

(** The categories with a given slug. *)
Definition categories_with_slug (slug : string) (w : World) : list Category :=
  List.filter (fun c => String.eqb (category_slug c) slug) (categories w).

(** The posts, published or not, with a given slug. *)
Definition posts_with_slug (slug : string) (w : World) : list Post :=
  List.filter (fun p => String.eqb (post_slug p) slug) (posts w).

(** A response of the first part as a reply. *)
Definition as_reply (r : exn + response) : exn + reply :=
  match r with
  | inr x => inr (Reply x)
  | inl e => inl e
  end.

(** The bounds the generator leaves on a row. *)
Definition generated_row (a : PostAnalytics) : Prop :=
  (50 <= pa_views a <= 1000)%Z
  ∧ (pa_views a + 100 <= pa_impressions a <= pa_views a + 2000)%Z
  ∧ (0 <= pa_clicks a <= pa_views a)%Z
  ∧ ctr_fresh a.

End MoreHandlers.

(** ** More concrete inputs *)

Module DemoMore.
Import Demo.

Local Open Scope Z_scope.

(** A broker that takes every task call. *)
Definition delay_ok : string -> string -> M unit := fun _ _ => ret tt.

(** A broker that cannot be reached. *)
Definition delay_down : string -> string -> M unit :=
  fun _ _ => raise (StoreError "broker unreachable").

(** An [increment_view] that fails. *)
Definition increment_view_fails : PostAnalytics -> string -> M unit :=
  fun _ _ => raise (StoreError "database is locked").


(** [blog] with the detail of [hello] cached, after [hello] was renamed. *)
Definition blog_detail_cached : World :=
  with_posts [hello_renamed; second]
    (snd (PostDetailView_get delay_ok "10.0.0.1" (Some "hello") blog)).

(** The same draw for every post. *)
Definition fixed_draw : Post -> Draw :=
  fun _ => {| draw_views := 60; draw_extra := 140; draw_clicks := 30;
              draw_avg_time := 0%Qc |}.

(** Redis refuses [keys]. *)
Definition keys_fail : site -> string -> bool :=
  fun s _ => match s with RedisKeys => true | _ => false end.



(** Two posts about the same subject, one with a colon in its title. *)
Definition guide : Post := {|
  post_id := 1%N; post_title := "Rocq: a primer"; post_description := "start here";
  post_content := "text"; post_keywords := "rocq"; post_slug := "rocq-a-primer";
  post_category_id := 3%N; post_category_slug := "fiction";
  post_created_at := 10; post_updated_at := 20 |}.

Definition notes : Post := {|
  post_id := 2%N; post_title := "Rocq notes"; post_description := "scattered";
  post_content := "text"; post_keywords := "rocq"; post_slug := "rocq-notes";
  post_category_id := 3%N; post_category_slug := "fiction";
  post_created_at := 30; post_updated_at := 40 |}.

Definition library : World := with_posts [guide; notes] empty_world.

(** [blog] after the categories were listed once. *)
Definition blog_after_category_list : World :=
  snd (CategoryListView_get plain_request blog).

End DemoMore.

(** * Properties *)

Section Properties.
Context `{RT : Runtime}.

Ltac unfold_monad :=
  unfold bind, ret, raise, try_except, guard, print, lift in *.

Ltac unfold_sync :=
  unfold sync_key, sync_update, sync_apply_delta, sync_read, sync_save_delta,
    get_or_create_by_post_id, get_or_create, _update_click_through_rate,
    save, save_at, redis_get, redis_delete, py_int in *.

Ltac crush_cases :=
  unfold_monad; simpl in *;
  repeat (case_match; simpl in *; simplify_eq/=); simpl in *.

(** ** One key of the reconciliation job *)

(** The update of the row touches neither the counters nor the log. *)
Lemma sync_update_frame key w :
  redis (snd (sync_update key w)) = redis w
  ∧ log (snd (sync_update key w)) = log w
  ∧ faults (snd (sync_update key w)) = faults w.
Proof. unfold_sync. crush_cases; auto. Qed.

(** The loop body never raises. *)
Lemma sync_key_returns key w : fst (sync_key key w) = inr tt.
Proof. unfold_sync. crush_cases; auto. Qed.

Lemma sync_key_faults key w : faults (snd (sync_key key w)) = faults w.
Proof. unfold_sync. crush_cases; auto. Qed.

(** The loop body for one key leaves the counters of the other keys alone. *)
Lemma sync_key_redis_other key k w :
  key ≠ k -> redis (snd (sync_key key w)) !! k = redis w !! k.
Proof.
  intros Hne. unfold_sync. crush_cases; auto; by rewrite lookup_delete_ne.
Qed.

(** Lines only get added to the log. *)
Lemma sync_key_log_mono key w line :
  line ∈ log w -> line ∈ log (snd (sync_key key w)).
Proof.
  intros Hin. unfold_sync. crush_cases; auto; rewrite elem_of_app; auto.
Qed.

(** What one pass of the loop body does to its own key: the key goes only
    when the update of the row has succeeded (and the [delete] itself too);
    on a failure the counters are as before and the line is in the log. *)
Lemma sync_key_own key w :
  match sync_update key w with
  | (inr _, w1) =>
      if faults w RedisDelete key
      then redis (snd (sync_key key w)) = redis w
           ∧ ∃ e, log (snd (sync_key key w)) = (log w ++ [sync_error_line key e])%list
      else redis (snd (sync_key key w)) = delete key (redis w)
           ∧ log (snd (sync_key key w)) = log w
  | (inl e, _) =>
      redis (snd (sync_key key w)) = redis w
      ∧ log (snd (sync_key key w)) = (log w ++ [sync_error_line key e])%list
  end.
Proof.
  pose proof (sync_update_frame key w) as (Hr & Hl & Hf).
  unfold sync_key. unfold_monad.
  destruct (sync_update key w) as [[e|a] w1] eqn:Hu; simpl in *.
  - by rewrite Hr, Hl.
  - unfold redis_delete. unfold_monad. rewrite Hf.
    destruct (faults w RedisDelete key); simpl.
    + rewrite Hr, Hl. eauto.
    + by rewrite Hr, Hl.
Qed.

(** The database after the loop body is the one the update left. *)
Lemma sync_key_analytics key w :
  analytics (snd (sync_key key w)) = analytics (snd (sync_update key w)).
Proof.
  unfold sync_key. unfold_monad.
  destruct (sync_update key w) as [[e|a] w1]; simpl; [done|].
  unfold redis_delete. unfold_monad. simpl. by destruct (faults w1 RedisDelete key).
Qed.

(** ** The loop over the keys *)

Lemma for_each_sync_returns keys w : fst (for_each keys sync_key w) = inr tt.
Proof.
  revert w. induction keys as [|key keys IH]; intros w; simpl; [done|].
  unfold bind. pose proof (sync_key_returns key w) as Hk.
  destruct (sync_key key w) as [[e|[]] w1]; simpl in *; [done|]. apply IH.
Qed.

Lemma for_each_sync_cons key keys w :
  snd (for_each (key :: keys) sync_key w)
  = snd (for_each keys sync_key (snd (sync_key key w))).
Proof.
  simpl. unfold bind. pose proof (sync_key_returns key w) as Hk.
  by destruct (sync_key key w) as [[e|[]] w1]; simpl in *.
Qed.

Lemma for_each_sync_app l1 l2 w :
  snd (for_each (l1 ++ l2) sync_key w)
  = snd (for_each l2 sync_key (snd (for_each l1 sync_key w))).
Proof.
  revert w. induction l1 as [|key l1 IH]; intros w; [done|].
  rewrite <- app_comm_cons, !for_each_sync_cons. apply IH.
Qed.

Lemma for_each_sync_faults keys w :
  faults (snd (for_each keys sync_key w)) = faults w.
Proof.
  revert w. induction keys as [|key keys IH]; intros w; [done|].
  by rewrite for_each_sync_cons, IH, sync_key_faults.
Qed.

Lemma for_each_sync_redis_other keys k w :
  k ∉ keys -> redis (snd (for_each keys sync_key w)) !! k = redis w !! k.
Proof.
  revert w. induction keys as [|key keys IH]; intros w Hk; [done|].
  apply not_elem_of_cons in Hk as [Hne Hk].
  rewrite for_each_sync_cons, IH by done. by apply sync_key_redis_other.
Qed.

Lemma for_each_sync_log_mono keys w line :
  line ∈ log w -> line ∈ log (snd (for_each keys sync_key w)).
Proof.
  revert w. induction keys as [|key keys IH]; intros w Hin; [done|].
  rewrite for_each_sync_cons. by apply IH, sync_key_log_mono.
Qed.

Lemma sync_impressions_to_db_unfold w :
  faults w RedisKeys "post:impressions:" = false ->
  sync_impressions_to_db w = for_each (pending_post_keys w) sync_key w.
Proof.
  intros Hf. unfold sync_impressions_to_db, redis_keys. unfold_monad.
  by rewrite Hf.
Qed.

Lemma elem_of_pending_post_keys w key :
  key ∈ pending_post_keys w
  ↔ is_Some (redis w !! key) ∧ String.prefix "post:impressions:" key = true.
Proof.
  unfold pending_post_keys. rewrite list_elem_of_filter, list_elem_of_fmap.
  split.
  - intros [Hp ([k v] & -> & Hin)]. apply elem_of_map_to_list in Hin.
    simpl in *. eauto.
  - intros [[v Hv] Hp]. split; [done|]. exists (key, v). split; [done|].
    by apply elem_of_map_to_list.
Qed.

Lemma NoDup_pending_post_keys w : NoDup (pending_post_keys w).
Proof. apply list.NoDup_filter, NoDup_fst_map_to_list. Qed.

(** ** C3: failures of the reconciliation job stay with their key *)

(** C3.  A run of [sync_impressions_to_db] whose enumeration of the keys
    succeeded returns normally, whatever fails afterwards.  Every enumerated
    key [key] has its turn in some world [wk] (the one left by the keys
    before it, where its counter is still the enumerated one), and there:
    - when the update of the analytics row fails, the counter of [key] is
      the same after the run and the run's log holds the error line of
      [key] (the same holds when the update succeeds and only the [delete]
      fails);
    - the key is gone after the run only when the update has succeeded. *)
Theorem sync_failures_stay_with_their_key (w : World) :
  faults w RedisKeys "post:impressions:" = false ->
  ∃ w',
    sync_impressions_to_db w = (inr tt, w')
    ∧ ∀ key, key ∈ pending_post_keys w ->
        ∃ before after,
          pending_post_keys w = (before ++ key :: after)%list
          ∧ let wk := snd (for_each before sync_key w) in
            redis wk !! key = redis w !! key
            ∧ (redis w' !! key = None ->
               ∃ a w1, sync_update key wk = (inr a, w1))
            ∧ match sync_update key wk with
              | (inr _, _) =>
                  if faults w RedisDelete key
                  then redis w' !! key = redis w !! key
                       ∧ ∃ e, sync_error_line key e ∈ log w'
                  else redis w' !! key = None
              | (inl e, _) =>
                  redis w' !! key = redis w !! key
                  ∧ sync_error_line key e ∈ log w'
              end.
Proof.
  intros Hkeys. rewrite (sync_impressions_to_db_unfold w Hkeys).
  exists (snd (for_each (pending_post_keys w) sync_key w)). split.
  { pose proof (for_each_sync_returns (pending_post_keys w) w) as Hr.
    destruct (for_each (pending_post_keys w) sync_key w) as [r w']; simpl in *.
    by subst. }
  intros key Hin.
  assert (is_Some (redis w !! key)) as [v Hv]
    by (by apply elem_of_pending_post_keys in Hin as [? _]).
  destruct (list_elem_of_split _ _ Hin) as (before & after & Hsplit).
  exists before, after. split; [done|].
  pose proof (NoDup_pending_post_keys w) as Hnd. rewrite Hsplit in Hnd.
  apply list.NoDup_app in Hnd as (_ & Hbefore & Hnd).
  apply list.NoDup_cons in Hnd as [Hafter _].
  assert (key ∉ before) as Hnb.
  { intros Hb. apply (Hbefore _ Hb). by left. }
  set (wk := snd (for_each before sync_key w)).
  assert (redis wk !! key = redis w !! key) as Hwk
    by (by apply for_each_sync_redis_other).
  assert (faults wk = faults w) as Hfk by apply for_each_sync_faults.
  rewrite Hsplit, for_each_sync_app, for_each_sync_cons. fold wk.
  set (w1 := snd (sync_key key wk)).
  assert (redis (snd (for_each after sync_key w1)) !! key = redis w1 !! key)
    as Hend by (by apply for_each_sync_redis_other).
  pose proof (sync_key_own key wk) as Hown. fold w1 in Hown. rewrite Hfk in Hown.
  simpl. split; [done|]. rewrite Hend.
  destruct (sync_update key wk) as [[e|a] w2] eqn:Hu.
  - destruct Hown as [Hr Hl]. rewrite Hr, Hwk. split.
    + rewrite Hv. done.
    + split; [done|]. apply for_each_sync_log_mono. rewrite Hl.
      apply elem_of_app. right. by left.
  - split; [eauto|].
    destruct (faults w RedisDelete key).
    + destruct Hown as [Hr [e Hl]]. rewrite Hr, Hwk. split; [done|].
      exists e. apply for_each_sync_log_mono. rewrite Hl.
      apply elem_of_app. right. by left.
    + destruct Hown as [Hr _]. rewrite Hr. apply lookup_delete_eq.
Qed.

(** ** C4: the keys the job never visits *)

(** A key that does not start with [post:impressions:] keeps its counter
    through a run of the job. *)
Lemma sync_redis_other_prefix (w : World) (k : string) :
  String.prefix "post:impressions:" k = false ->
  redis (snd (sync_impressions_to_db w)) !! k = redis w !! k.
Proof.
  intros Hk. destruct (faults w RedisKeys "post:impressions:") eqn:Hf.
  - unfold sync_impressions_to_db, redis_keys. unfold_monad. by rewrite Hf.
  - rewrite (sync_impressions_to_db_unfold w Hf).
    apply for_each_sync_redis_other. rewrite elem_of_pending_post_keys.
    intros [_ Hp]. congruence.
Qed.

(** C4 (the code falls short of it).  The job enumerates
    [post:impressions:*] only: the counter that [CategoryListView.get]
    increments for a category is the same after a run of the job as before
    it, in every world, so the pending impressions of categories are never
    drained. *)
Theorem sync_never_drains_category_counters (w : World) (c : Category) :
  redis (snd (sync_impressions_to_db w)) !! category_impressions_key c
  = redis w !! category_impressions_key c.
Proof. by apply sync_redis_other_prefix. Qed.

(** ** C1: the rate of a row and its counters *)

Lemma ctr_fresh_recomputed a :
  ctr_fresh (with_click_through_rate (ratio (pa_clicks a) (pa_impressions a)) a).
Proof. done. Qed.

Lemma ctr_fresh_new u : ctr_fresh (new_analytics u).
Proof. done. Qed.

Lemma rates_fresh_insert w u a :
  rates_fresh w -> ctr_fresh a ->
  forall u' a', <[u := a]> (analytics w) !! u' = Some a' -> ctr_fresh a'.
Proof.
  intros Hw Ha u' a'. rewrite lookup_insert. case_decide; [naive_solver|].
  apply Hw.
Qed.

(** What the helper writes is fresh. *)
Lemma update_click_through_rate_fresh a w :
  rates_fresh w -> rates_fresh (snd (_update_click_through_rate a w)).
Proof.
  intros Hw. unfold _update_click_through_rate, save_at. unfold_monad.
  destruct (faults w DbSaveRate _); simpl; [done|]. intros u' a'. simpl.
  apply rates_fresh_insert; done.
Qed.

Lemma get_or_create_fresh u w :
  rates_fresh w -> rates_fresh (snd (get_or_create u w)).
Proof.
  intros Hw. unfold get_or_create. unfold_monad.
  destruct (faults w DbGetOrCreate (uuid_str u)); simpl; [done|].
  destruct (analytics w !! u) as [a0|] eqn:Ha; simpl; [done|].
  case_bool_decide; simpl; [|done].
  intros u' a'. simpl. by apply rates_fresh_insert.
Qed.

(** A click leaves every stored rate fresh, whatever fails. *)
Lemma click_keeps_rates_fresh slug w :
  rates_fresh w -> rates_fresh (snd (IncrementPostClickView_post slug w)).
Proof.
  intros Hw. unfold IncrementPostClickView_post, postobjects_get_by_slug,
    postobjects_all. unfold_monad.
  destruct slug as [slug|]; simpl; [|done].
  destruct (faults w DbQuery "post"); simpl; [done|].
  destruct (List.filter _ _) as [|post [|]]; simpl; try done.
  pose proof (get_or_create_fresh (post_id post) w Hw) as Hg.
  destruct (get_or_create (post_id post) w) as [[e|a] w1]; simpl in *; [done|].
  unfold increment_click.
  pose proof (update_click_through_rate_fresh (add_clicks 1 a) w1 Hg) as Hu.
  by destruct (_update_click_through_rate (add_clicks 1 a) w1) as [[e|a2] w2].
Qed.

(** Unless the helper's own write fails, a pass of the loop body leaves
    every stored rate fresh: the stale row written at line 52 is overwritten
    at line 54. *)
Lemma sync_key_keeps_rates_fresh key w :
  (forall arg, faults w DbSaveRate arg = false) ->
  rates_fresh w -> rates_fresh (snd (sync_key key w)).
Proof.
  intros Hf Hw u' a'. rewrite sync_key_analytics.
  unfold sync_update, sync_apply_delta, sync_read, sync_save_delta,
    get_or_create_by_post_id, redis_get, py_int. unfold_monad.
  destruct (faults w RedisGet key); simpl; [apply Hw|].
  destruct (redis w !! key) as [v|]; simpl; [|apply Hw].
  destruct (uuid_parse (last_segment key)) as [u|]; simpl; [|apply Hw].
  pose proof (get_or_create_fresh u w Hw) as Hg.
  assert (faults (snd (get_or_create u w)) = faults w) as Hfg.
  { unfold get_or_create. unfold_monad.
    destruct (faults w DbGetOrCreate (uuid_str u)); simpl; [done|].
    destruct (analytics w !! u); simpl; [done|].
    by case_bool_decide. }
  destruct (get_or_create u w) as [[e|a] w1]; simpl in *; [apply Hg|].
  unfold save, _update_click_through_rate, save_at. unfold_monad. simpl.
  destruct (faults w1 DbSave (uuid_str (pa_post a))); simpl; [apply Hg|].
  rewrite Hfg, Hf. simpl. rewrite insert_insert_eq.
  apply rates_fresh_insert; done.
Qed.

Lemma for_each_sync_keeps_rates_fresh keys w :
  (forall arg, faults w DbSaveRate arg = false) ->
  rates_fresh w -> rates_fresh (snd (for_each keys sync_key w)).
Proof.
  revert w. induction keys as [|key keys IH]; intros w Hf Hw; [done|].
  rewrite for_each_sync_cons. apply IH.
  - intros arg. by rewrite sync_key_faults.
  - by apply sync_key_keeps_rates_fresh.
Qed.

(** Unless the helper's own write fails, a run of the job leaves every
    stored rate fresh. *)
Lemma sync_keeps_rates_fresh w :
  (forall arg, faults w DbSaveRate arg = false) ->
  rates_fresh w -> rates_fresh (snd (sync_impressions_to_db w)).
Proof.
  intros Hf Hw. destruct (faults w RedisKeys "post:impressions:") eqn:Hk.
  - unfold sync_impressions_to_db, redis_keys. unfold_monad. by rewrite Hk.
  - rewrite (sync_impressions_to_db_unfold w Hk).
    by apply for_each_sync_keeps_rates_fresh.
Qed.

(** ** C9: the job beside the workers *)

(** The three steps of the job in a row are the loop body. *)
Lemma job_steps_are_sync_key key w :
  snd (run_schedule key [JobGet; JobUpdate; JobDelete] (JobIdle, w))
  = snd (sync_key key w).
Proof.
  unfold run_schedule, sync_key, sync_update, sync_apply_delta. simpl.
  unfold job_outcome. unfold_monad.
  destruct (sync_read key w) as [[e|v] w1]; simpl; [reflexivity|].
  unfold job_outcome. unfold_monad.
  destruct (sync_save_delta key v w1) as [[e|a] w2]; simpl; [reflexivity|].
  destruct (_update_click_through_rate a w2) as [[e|a'] w3]; simpl; [reflexivity|].
  unfold job_outcome.
  destruct (redis_delete key w3) as [[e|[]] w4]; reflexivity.
Qed.

End Properties.

(** * The handlers on concrete inputs *)

Section Concrete.
Import Demo.

Lemma hello_row_fresh : ctr_fresh hello_row.
Proof. unfold ctr_fresh. apply Qc_is_canon. by vm_compute. Qed.

Lemma blog_pending_fresh : rates_fresh blog_pending.
Proof.
  intros u a. simpl. intros [_ <-]%lookup_singleton_Some. apply hello_row_fresh.
Qed.

(** C1 (the code falls short of it).  The row of post 1 holds 1 click,
    1 impression and the rate 1, and one more impression is pending.
    [analytics.save()] at line 52 stores the row with 2 impressions and the
    old rate 1, which is not the rate of its counters; when the write of the
    recomputed rate then fails, the job ends with that row in the table. *)
Theorem sync_saves_row_with_stale_rate :
  rates_fresh blog_pending
  ∧ (∃ a, analytics (snd (sync_apply_delta "post:impressions:1" blog_pending)) !! 1%N
          = Some a
          ∧ pa_clicks a = 1%Z ∧ pa_impressions a = 2%Z
          ∧ pa_click_through_rate a = pa_click_through_rate hello_row
          ∧ ¬ ctr_fresh a)
  ∧ (∃ a, analytics (snd (sync_impressions_to_db
                            (with_faults rate_write_fails blog_pending))) !! 1%N
          = Some a
          ∧ pa_impressions a = 2%Z
          ∧ ¬ ctr_fresh a).
Proof.
  assert (¬ ctr_fresh (add_impressions 1 hello_row)) as Hstale.
  { unfold ctr_fresh. intros H. apply (f_equal Qcanon.this) in H.
    vm_compute in H. discriminate. }
  split; [apply blog_pending_fresh|]. split.
  - exists (add_impressions 1 hello_row). split; [by vm_compute|]. done.
  - exists (add_impressions 1 hello_row). split; [by vm_compute|]. done.
Qed.

(** C3 on an input: one key whose row can be updated and one that names no
    post.  The run returns; the first key is drained and gone, the second is
    left with its delta and its failure is in the log. *)
Example sync_with_a_failing_key :
  let r := sync_impressions_to_db blog_two_pending in
  fst r = inr tt
  ∧ redis (snd r) = {[ "post:impressions:gone" := 5%Z ]}
  ∧ drained 1%N (snd r) = 2%Z
  ∧ log (snd r)
    = ["Error syncing impressions for b'post:impressions:gone': gone is not a valid UUID."].
Proof. by vm_compute. Qed.

(** Without a failing store the same run ends with the rate 1/2. *)
Example sync_ends_with_fresh_rate :
  ∃ a, analytics (snd (sync_impressions_to_db blog_pending)) !! 1%N = Some a
       ∧ pa_impressions a = 2%Z ∧ ctr_fresh a
       ∧ redis (snd (sync_impressions_to_db blog_pending)) !! "post:impressions:1" = None.
Proof.
  eexists. split; [by vm_compute|]. split; [done|]. split; [done|]. by vm_compute.
Qed.

(** C4 on an input: a category list read leaves one impression pending under
    [category:impressions:3]; the job that runs next leaves it there and
    writes nothing. *)
Example category_impression_stays_pending :
  let w1 := snd (CategoryListView_get plain_request blog) in
  let w2 := snd (sync_impressions_to_db w1) in
  redis w1 !! "category:impressions:3" = Some 1%Z
  ∧ redis w2 !! "category:impressions:3" = Some 1%Z
  ∧ analytics w2 = ∅.
Proof. by vm_compute. Qed.


(** When the job runs after both increments, both reach the row. *)
Example sequential_increments_are_kept :
  let key := "post:impressions:1" in
  let evs := [WorkerIncr; WorkerIncr; JobGet; JobUpdate; JobDelete] in
  let st := run_schedule key evs (JobIdle, blog) in
  increments evs = 2%Z ∧ drained 1%N (snd st) = 2%Z ∧ pending key (snd st) = 0%Z.
Proof. by vm_compute. Qed.

End Concrete.

(** * The list handlers *)

Section ViewProperties.
Context `{RT : Runtime}.

(** ** The impression counters of a result set *)

Lemma set_redis_id w : set_redis (redis w) w = w.
Proof. by destruct w. Qed.

(** With Redis answering, the loop over the result set is [incr_all]. *)
Lemma for_each_incr_run {A} (key_of : A -> string) (l : list A) w :
  (forall q, q ∈ l -> faults w RedisIncr (key_of q) = false) ->
  for_each l (fun q => run! redis_incr (key_of q) in ret tt) w
  = (inr tt, set_redis (incr_all (key_of <$> l) (redis w)) w).
Proof.
  revert w. induction l as [|q l IH]; intros w Hf; simpl.
  - unfold ret. by rewrite set_redis_id.
  - unfold redis_incr at 1. unfold bind at 1 2 3. unfold guard, ret at 1.
    rewrite (Hf q) by (by left). simpl.
    rewrite IH by (intros q' Hq'; simpl; apply Hf; by right).
    done.
Qed.



(** Each [incr] adds one to its key: a key gains as many impressions as the
    result set names it. *)
Lemma incr_all_lookup (keys : list string) (r : gmap string Z) (k : string) :
  default 0%Z (incr_all keys r !! k)
  = (default 0 (r !! k) + Z.of_nat (length (filter (fun k' => k' = k) keys)))%Z.
Proof.
  revert r. induction keys as [|key keys IH]; intros r; simpl.
  - lia.
  - unfold incr_all in *. simpl. rewrite IH. rewrite filter_cons.
    rewrite lookup_insert. destruct (decide (key = k)) as [->|Hne]; simpl; lia.
Qed.

(** ** Stepping through a handler *)

Lemma bind_inr {A B} (m : M A) (k : A -> M B) w a w' :
  m w = (inr a, w') -> bind m k w = k a w'.
Proof. intros H. unfold bind. by rewrite H. Qed.

Lemma cache_get_ok key w :
  faults w CacheGet key = false -> cache_get key w = (inr (cache_lookup key w), w).
Proof. intros H. unfold cache_get, bind, guard. by rewrite H. Qed.

Lemma cache_set_ok key v timeout w :
  faults w CacheSet key = false ->
  cache_set key v timeout w
  = (inr tt, set_cache (<[key := (v, (now w + timeout)%Z)]> (cache w)) w).
Proof. intros H. unfold cache_set, bind, guard. by rewrite H. Qed.

Lemma postobjects_all_ok w :
  faults w DbQuery "post" = false ->
  postobjects_all w = (inr (List.filter postobjects_row (posts w)), w).
Proof. intros H. unfold postobjects_all, bind, guard. by rewrite H. Qed.

(** ** The two paths of [PostListView.get] *)


(** The hit path of [CategoryListView.get] is the same. *)
Lemma category_list_hit req w c l :
  faults w CacheGet (category_list_cache_key req) = false ->
  cache_lookup (category_list_cache_key req) w = Some (CachedCategories (c :: l)) ->
  (forall q, q ∈ c :: l -> faults w RedisIncr (category_impressions_key q) = false) ->
  CategoryListView_get req w
  = (page_answer CategoryPage (paginate Category (request_page req) (c :: l)),
     set_redis (incr_all (category_impressions_key <$> c :: l) (redis w)) w).
Proof.
  intros Hget Hhit Hincr.
  unfold CategoryListView_get, try_except, CategoryListView_get_body. cbv zeta.
  rewrite (bind_inr _ _ _ _ _ (cache_get_ok _ _ Hget)), Hhit.
  lazy beta iota zeta. unfold incr_category_impressions.
  rewrite (bind_inr _ _ _ _ _ (for_each_incr_run _ _ _ Hincr)).
  unfold bind, lift, ret, raise, page_answer.
  by destruct (paginate Category (request_page req) (c :: l)).
Qed.

(** The miss path, up to the loop over the impressions: nothing cached, the
    manager has rows, the stores answer. *)
Lemma post_list_miss req w :
  faults w CacheGet (post_list_cache_key req) = false ->
  cache_lookup (post_list_cache_key req) w = None ->
  faults w DbQuery "post" = false ->
  List.filter postobjects_row (posts w) ≠ [] ->
  faults w CacheSet (post_list_cache_key req) = false ->
  let l := post_list_result req w in
  let w1 := set_cache (<[post_list_cache_key req
                         := (CachedPosts l, (now w + 60 * 5)%Z)]> (cache w)) w in
  PostListView_get req w
  = match incr_post_impressions l w1 with
    | (inr _, w2) => (page_answer PostPage (paginate Post (request_page req) l), w2)
    | (inl e, w2) =>
        (inl (APIException ("An unexpected error occurred: " +:+ exn_str e)), w2)
    end.
Proof.
  intros Hget Hmiss Hdb Hrows Hset l w1.
  unfold PostListView_get, try_except, PostListView_get_body. cbv zeta.
  rewrite (bind_inr _ _ _ _ _ (cache_get_ok _ _ Hget)), Hmiss.
  lazy beta iota zeta.
  rewrite (bind_inr _ _ _ _ _ (postobjects_all_ok _ Hdb)).
  destruct (List.filter postobjects_row (posts w)) as [|p0 rows] eqn:Hr; [done|].
  lazy beta iota zeta.
  rewrite (bind_inr _ _ _ _ _ (cache_set_ok _ _ _ _ Hset)).
  subst l w1. unfold post_list_result. rewrite Hr.
  unfold bind at 1.
  destruct (incr_post_impressions _ _) as [[e|[]] w2]; [done|].
  unfold bind, lift, ret, raise, page_answer.
  by destruct (paginate Post (request_page req) _).
Qed.

Lemma incr_all_fmap_lookup {A} (key_of : A -> string) (l : list A)
    (r : gmap string Z) (k : string) :
  default 0%Z (incr_all (key_of <$> l) r !! k)
  = (default 0 (r !! k)
     + Z.of_nat (length (filter (fun q => key_of q = k) l)))%Z.
Proof.
  rewrite incr_all_lookup. do 2 f_equal.
  induction l as [|q l IH]; [done|].
  rewrite fmap_cons, !filter_cons. by case_decide; simpl; rewrite IH.
Qed.

(** ** C6: what a miss stores *)



(** ** C5: what a hit serves *)


(** ** C2: a selection of zero entities *)

(** Whatever the [try] block raises leaves [PostListView.get] as an
    [APIException]. *)
Lemma post_list_raises_api_exception req w e :
  fst (PostListView_get req w) = inl e ->
  ∃ e0, e = APIException ("An unexpected error occurred: " +:+ exn_str e0).
Proof.
  unfold PostListView_get, try_except, raise.
  destruct (PostListView_get_body req w) as [[e0|r] w1]; simpl; [|done].
  intros [= <-]. eauto.
Qed.

(** C2 (the code falls short of it).  No request is ever answered by
    [PostListView.get] with a [NotFound]: the [NotFound] of line 55 is caught
    by the clause of line 110 and leaves as the generic [APIException]. *)
Theorem post_list_never_answers_not_found (req : ListRequest) (w : World)
    (detail : string) :
  fst (PostListView_get req w) ≠ inl (NotFound detail).
Proof.
  intros H. by apply post_list_raises_api_exception in H as [e0 ?].
Qed.

(** A search or category filter that selects nothing among existing rows is
    answered with the page of the empty list. *)
Lemma post_list_empty_selection_is_a_page req w :
  healthy w ->
  cache_lookup (post_list_cache_key req) w = None ->
  List.filter postobjects_row (posts w) ≠ [] ->
  post_list_result req w = [] ->
  fst (PostListView_get req w)
  = page_answer PostPage (paginate Post (request_page req) []).
Proof.
  intros Hh Hmiss Hrows Hres.
  rewrite (post_list_miss req w (Hh _ _) Hmiss (Hh _ _) Hrows (Hh _ _)).
  cbv zeta. by rewrite Hres.
Qed.

(** ** C8: a failing counter store *)

(** C8 (the code falls short of it).  On a cold cache, with the cache and
    the database answering and a result set [p :: l], a Redis that refuses
    the first [incr] makes [PostListView.get] answer with the generic
    [APIException] instead of the content. *)
Theorem post_list_counter_failure_reaches_requester
    (req : ListRequest) (w : World) (p : Post) (l : list Post) :
  faults w CacheGet (post_list_cache_key req) = false ->
  cache_lookup (post_list_cache_key req) w = None ->
  faults w DbQuery "post" = false ->
  List.filter postobjects_row (posts w) ≠ [] ->
  faults w CacheSet (post_list_cache_key req) = false ->
  post_list_result req w = p :: l ->
  faults w RedisIncr (post_impressions_key p) = true ->
  fst (PostListView_get req w)
  = inl (APIException ("An unexpected error occurred: store call failed: "
                       +:+ post_impressions_key p)).
Proof.
  intros Hget Hmiss Hdb Hrows Hset Hres Hincr.
  rewrite (post_list_miss req w Hget Hmiss Hdb Hrows Hset). cbv zeta.
  rewrite Hres. unfold incr_post_impressions. simpl.
  unfold redis_incr, bind, guard. simpl. by rewrite Hincr.
Qed.


(** ** C7: the category filter *)

Lemma q_or_leaf_holds acc leaf p :
  acc ≠ Q_empty -> leaf ≠ Q_empty ->
  q_or acc leaf ≠ Q_empty
  ∧ q_holds (q_or acc leaf) p = q_holds acc p || q_holds leaf p.
Proof. by destruct acc, leaf. Qed.

Lemma token_leaf_holds token p :
  let leaf := match uuid_parse token with
              | Some _ => Q_category_id token
              | None => Q_category_slug token
              end in
  leaf ≠ Q_empty ∧ (q_holds leaf p = true ↔ token_matches token p).
Proof.
  unfold token_matches. destruct (uuid_parse token) as [u|] eqn:Hu; simpl.
  - rewrite Hu. split; [done|]. by rewrite bool_decide_eq_true.
  - split; [done|]. by rewrite String.eqb_eq.
Qed.

Lemma category_queries_from_holds tokens acc p :
  acc ≠ Q_empty ->
  q_holds (category_queries_from acc tokens) p = true
  ↔ q_holds acc p = true ∨ ∃ t, t ∈ tokens ∧ token_matches t p.
Proof.
  revert acc. induction tokens as [|t tokens IH]; intros acc Hacc; simpl.
  - split; [by left|]. intros [?|(t & Ht & _)]; [done|]. by apply elem_of_nil in Ht.
  - pose proof (token_leaf_holds t p) as [Hleaf Hm]. simpl in *.
    assert (category_queries_from
              (match uuid_parse t with
               | Some _ => q_or acc (Q_category_id t)
               | None => q_or acc (Q_category_slug t)
               end) tokens
            = category_queries_from
                (q_or acc (match uuid_parse t with
                           | Some _ => Q_category_id t
                           | None => Q_category_slug t
                           end)) tokens) as -> by (by destruct (uuid_parse t)).
    destruct (q_or_leaf_holds acc _ p Hacc Hleaf) as [Hne Hor].
    rewrite (IH _ Hne), Hor, orb_true_iff, Hm.
    split.
    + intros [[?|?]|(t' & Ht' & ?)]; [by left| |].
      * right. exists t. split; [by left|done].
      * right. exists t'. split; [by right|done].
    + intros [?|(t' & Ht' & ?)]; [by left; left|].
      apply elem_of_cons in Ht' as [->|Ht']; [by left; right|].
      right. eauto.
Qed.

(** The [Q] object of lines 68-81 holds of a post exactly when some token
    matches it. *)
Lemma category_queries_holds tokens p :
  tokens ≠ [] ->
  q_holds (category_queries tokens) p = true ↔ ∃ t, t ∈ tokens ∧ token_matches t p.
Proof.
  destruct tokens as [|t tokens]; [done|]. intros _.
  unfold category_queries. simpl.
  pose proof (token_leaf_holds t p) as [Hleaf Hm]. simpl in *.
  rewrite (category_queries_from_holds _ _ _ Hleaf), Hm. split.
  - intros [?|(t' & Ht' & ?)].
    + exists t. split; [by left|done].
    + exists t'. split; [by right|done].
  - intros (t' & Ht' & ?). apply elem_of_cons in Ht' as [->|Ht']; [by left|].
    right. eauto.
Qed.

(** C7.  For every request with category tokens, a post passes the filters
    of [PostListView.get] exactly when it is among the manager's rows, passes
    the search, and some token matches it: by category id for a token that
    parses as an identifier, by category slug for one that does not.  The
    per-token conditions are OR-combined in one filter. *)
Theorem category_filter_is_or_of_tokens
    (search : string) (tokens : list string) (rows : list Post) (p : Post) :
  tokens ≠ [] ->
  p ∈ post_list_filter search tokens rows
  ↔ p ∈ rows
    ∧ (search = "" ∨ post_matches_search search p = true)
    ∧ ∃ t, t ∈ tokens ∧ token_matches t p.
Proof.
  intros Htokens. unfold post_list_filter. simpl.
  destruct tokens as [|t0 tokens0] eqn:Ht; [done|]. rewrite <- Ht in *.
  rewrite list_elem_of_In, filter_In, <- list_elem_of_In.
  rewrite (category_queries_holds tokens p Htokens).
  destruct (String.eqb search "") eqn:Hs; simpl.
  - apply String.eqb_eq in Hs. split.
    + intros [Hin Hex]. split; [done|]. split; [by left|done].
    + by intros (Hin & _ & Hex).
  - apply String.eqb_neq in Hs.
    rewrite list_elem_of_In, filter_In, <- list_elem_of_In. split.
    + intros [[Hin Hm] Hex]. split; [done|]. split; [by right|done].
    + by intros (Hin & [Hs'|Hm] & Hex).
Qed.

(** Without sorting and ordering parameters the filtered rows are the
    result set. *)
Lemma post_list_query_unordered search tokens rows :
  post_list_query search None None tokens rows = post_list_filter search tokens rows.
Proof. done. Qed.

(** ** C10: the ordering parameter of the category list *)

(** C10.  A category list request with [ordering] equal to [az] or [za] that
    does not hit the cache is answered with the generic [APIException], in
    every world. *)
Theorem category_list_ordering_always_fails (req : ListRequest) (w : World) :
  q_ordering req = Some "az" ∨ q_ordering req = Some "za" ->
  category_list_misses req w ->
  ∃ detail,
    fst (CategoryListView_get req w)
    = inl (APIException ("An unexpected error occurred: " +:+ detail)).
Proof.
  intros Hord Hmiss.
  assert (∃ e, fst (CategoryListView_get_body req w) = inl e) as [e He].
  { unfold CategoryListView_get_body, cache_get, categories_initial. cbv zeta.
    unfold bind at 1 2. unfold guard at 1.
    destruct (faults w CacheGet _); simpl; [eauto|].
    specialize (Hmiss).
    destruct (cache_lookup (category_list_cache_key req) w) as [[[|p l]|[|c l]]|] eqn:Hl;
      try (by exfalso; eapply Hmiss); try (by unfold raise; simpl; eauto).
    all: unfold bind at 1 2; unfold guard at 1;
      (destruct (faults w DbQuery "category"); simpl; [eauto|]);
      match goal with |- context [match ?rows with [] => _ | _ :: _ => _ end] =>
        destruct rows as [|c0 rows0] end; [unfold raise; simpl; eauto|];
      destruct Hord as [-> | ->]; simpl; unfold unbound_posts, bind, raise, ret;
        simpl; eauto. }
  unfold CategoryListView_get, try_except, raise.
  destruct (CategoryListView_get_body req w) as [[e0|r] w1]; simpl in *; [|done].
  eauto.
Qed.

(** With the stores answering and categories to list, the exception is the
    read of the unassigned local [posts]. *)
Lemma category_list_ordering_unbound_local req w :
  q_ordering req = Some "az" ∨ q_ordering req = Some "za" ->
  healthy w ->
  cache_lookup (category_list_cache_key req) w = None ->
  category_rows (q_parent_slug req) w ≠ [] ->
  fst (CategoryListView_get req w)
  = inl (APIException
           "An unexpected error occurred: cannot access local variable 'posts' where it is not associated with a value").
Proof.
  intros Hord Hh Hmiss Hrows.
  assert (categories_initial (q_parent_slug req) w
          = (inr (category_rows (q_parent_slug req) w), w)) as Hinit.
  { unfold categories_initial, bind, guard. by rewrite (Hh DbQuery "category"). }
  unfold CategoryListView_get, try_except, CategoryListView_get_body. cbv zeta.
  rewrite (bind_inr _ _ _ _ _ (cache_get_ok _ _ (Hh _ _))), Hmiss.
  lazy beta iota zeta. rewrite (bind_inr _ _ _ _ _ Hinit).
  destruct (category_rows (q_parent_slug req) w) as [|c0 rows0]; [done|].
  destruct Hord as [-> | ->]; reflexivity.
Qed.

End ViewProperties.

(** * The list handlers on concrete inputs *)

Section ConcreteViews.
Import Demo.

(** C2 on an input: [blog] has two posts and none contains [zzz]; the
    request is answered with the page of the empty list, not with a
    [NotFound]. *)
Example post_list_search_without_match :
  fst (PostListView_get (search_request "zzz") blog) = inr (PostPage []).
Proof. by vm_compute. Qed.

(** With no post at all, the [NotFound] of line 55 leaves as the generic
    [APIException], status 500. *)
Example post_list_without_posts :
  fst (PostListView_get plain_request empty_world)
  = inl (APIException "An unexpected error occurred: No posts found.")
  ∧ status_code (APIException "An unexpected error occurred: No posts found.") = 500%Z.
Proof. by vm_compute. Qed.


(** The two requests of that run. *)
Example empty_search_then_requery :
  fst (PostListView_get (search_request "News") blog) = inr (PostPage [])
  ∧ cache_lookup (post_list_cache_key (search_request "News")) blog_after_empty_search
    = Some (CachedPosts [])
  ∧ fst (PostListView_get (search_request "News") blog_after_empty_search)
    = inr (PostPage [news]).
Proof. by vm_compute. Qed.


(** What the miss on [blog] stores. *)
Example post_list_miss_stores_rows :
  cache (snd (PostListView_get plain_request blog)) !! "post_list::None:None:[]:1"
  = Some (CachedPosts [hello; second], 1300%Z).
Proof. by vm_compute. Qed.

(** C8 on an input: the same request on the same tables, Redis refusing
    [incr]. *)
Example post_list_with_redis_down :
  fst (PostListView_get plain_request blog) = inr (PostPage [hello; second])
  ∧ fst (PostListView_get plain_request blog_redis_down)
    = inl (APIException
             "An unexpected error occurred: store call failed: post:impressions:1").
Proof. by vm_compute. Qed.

(** C10 on an input. *)
Example category_list_az :
  fst (CategoryListView_get plain_request blog) = inr (CategoryPage [fiction])
  ∧ fst (CategoryListView_get (ordering_request "az") blog)
    = inl (APIException
             "An unexpected error occurred: cannot access local variable 'posts' where it is not associated with a value").
Proof. by vm_compute. Qed.

(** ** The theorems with hypotheses, applied *)

(** C3 at [blog_two_pending], where the enumeration succeeds. *)
Lemma sync_failures_stay_with_their_key_witness :
  ∃ w', sync_impressions_to_db blog_two_pending = (inr tt, w').
Proof.
  destruct (sync_failures_stay_with_their_key blog_two_pending eq_refl)
    as (w' & Hrun & _).
  exists w'. exact Hrun.
Defined.



(** C7 at the tokens [3] (an identifier) and [essays] (a slug). *)
Lemma category_filter_is_or_of_tokens_witness :
  hello ∈ post_list_filter "" ["3"; "essays"] [hello; second]
  ↔ hello ∈ [hello; second]
    ∧ ("" = "" ∨ post_matches_search "" hello = true)
    ∧ ∃ t, t ∈ ["3"; "essays"] ∧ token_matches t hello.
Proof.
  apply (category_filter_is_or_of_tokens "" ["3"; "essays"] [hello; second] hello).
  discriminate.
Defined.

(** C8 at the plain request on [blog_redis_down]. *)
Lemma post_list_counter_failure_reaches_requester_witness :
  fst (PostListView_get plain_request blog_redis_down)
  = inl (APIException ("An unexpected error occurred: store call failed: "
                       +:+ post_impressions_key hello)).
Proof.
  apply (post_list_counter_failure_reaches_requester plain_request blog_redis_down
           hello [second]).
  - reflexivity.
  - reflexivity.
  - reflexivity.
  - vm_compute. discriminate.
  - reflexivity.
  - reflexivity.
  - reflexivity.
Defined.

(** C10 at the ordering [za] on [blog]. *)
Lemma category_list_ordering_always_fails_witness :
  ∃ detail,
    fst (CategoryListView_get (ordering_request "za") blog)
    = inl (APIException ("An unexpected error occurred: " +:+ detail)).
Proof.
  apply (category_list_ordering_always_fails (ordering_request "za") blog).
  - right. reflexivity.
  - intros c l. vm_compute. discriminate.
Defined.

End ConcreteViews.

(** * The job as a whole *)

Section JobProperties.
Context `{RT : Runtime}.

(** ** Keys and the posts they name *)

Lemma split_colon_not_nil s : split_colon s ≠ [].
Proof.
  destruct s as [|c s]; simpl; [done|].
  destruct (Ascii.eqb c ":"); [done|]. by destruct (split_colon s).
Qed.

Lemma last_cons_not_nil {A} (x : A) l d : l ≠ [] -> List.last (x :: l) d = List.last l d.
Proof. by destruct l. Qed.

(** A text without a colon is its own single segment. *)
Lemma split_colon_no_colon s : no_colon s = true -> split_colon s = [s].
Proof.
  induction s as [|c s IH]; simpl; [done|].
  destruct (Ascii.eqb c ":"); simpl; [done|]. intros Hs. by rewrite IH.
Qed.

Lemma append_cons c a b : String c a +:+ b = String c (a +:+ b).
Proof. done. Qed.

Lemma split_colon_colon s : split_colon (":" +:+ s) = "" :: split_colon s.
Proof. done. Qed.

(** A text with a colon has at least two segments. *)
Lemma split_colon_two pre s :
  ∃ seg seg' rest, split_colon (pre +:+ ":" +:+ s) = seg :: seg' :: rest.
Proof.
  induction pre as [|c pre (seg & seg' & rest & IH)].
  - change ("" +:+ ":" +:+ s) with (":" +:+ s). rewrite split_colon_colon.
    pose proof (split_colon_not_nil s). destruct (split_colon s); [done|eauto].
  - rewrite append_cons. simpl. rewrite IH. destruct (Ascii.eqb c ":"); eauto.
Qed.

(** After a colon, what comes before does not matter for the last segment. *)
Lemma last_segment_after_colon pre s :
  last_segment (pre +:+ ":" +:+ s) = last_segment s.
Proof.
  unfold last_segment. induction pre as [|c pre IH].
  - change ("" +:+ ":" +:+ s) with (":" +:+ s). rewrite split_colon_colon.
    apply last_cons_not_nil, split_colon_not_nil.
  - rewrite append_cons, <- IH.
    destruct (split_colon_two pre s) as (seg & seg' & rest & Hsplit).
    simpl. rewrite Hsplit. by destruct (Ascii.eqb c ":").
Qed.

(** The key of a post ends in the text of its id. *)
Lemma last_segment_impressions_key u :
  no_colon (uuid_str u) = true ->
  last_segment (impressions_key_of u) = uuid_str u.
Proof.
  intros Hu. unfold impressions_key_of.
  change ("post:impressions:" +:+ uuid_str u)
    with ("post:impressions" +:+ ":" +:+ uuid_str u).
  rewrite last_segment_after_colon. unfold last_segment.
  by rewrite split_colon_no_colon.
Qed.

Lemma prefix_impressions_key u :
  String.prefix "post:impressions:" (impressions_key_of u) = true.
Proof.
  unfold impressions_key_of. simpl.
  change ("" +:+ uuid_str u) with (uuid_str u). by destruct (uuid_str u).
Qed.

(** X1.  The key under which a list read counts the impressions of a post
    is one the job enumerates, and the job decodes it to that post: provided
    the text of the id has no colon and parses back to the id. *)
Theorem list_read_key_names_its_post (p : Post) :
  no_colon (uuid_str (post_id p)) = true ->
  uuid_parse (uuid_str (post_id p)) = Some (post_id p) ->
  String.prefix "post:impressions:" (post_impressions_key p) = true
  ∧ key_post (post_impressions_key p) = Some (post_id p).
Proof.
  intros Hcolon Hparse. split; [apply prefix_impressions_key|].
  unfold key_post. change (post_impressions_key p) with (impressions_key_of (post_id p)).
  by rewrite last_segment_impressions_key.
Qed.

(** ** One drainable key *)


Lemma table_keyed_insert w u a :
  table_keyed w -> pa_post a = u ->
  map_Forall (fun u a => pa_post a = u) (<[u := a]> (analytics w)).
Proof. intros Hk Ha. by apply map_Forall_insert_2. Qed.






(** ** A run of the job *)





(** ** Keys the job cannot decode *)

Lemma sync_update_undecodable key w :
  key_post key = None -> ∃ e w1, sync_update key w = (inl e, w1).
Proof.
  unfold key_post. intros Hk.
  unfold sync_update, sync_apply_delta, sync_read, sync_save_delta,
    get_or_create_by_post_id, redis_get, py_int, bind, guard, ret, raise.
  rewrite Hk. destruct (faults w RedisGet key); simpl; [eauto|].
  destruct (redis w !! key); simpl; eauto.
Qed.

Lemma sync_key_undecodable key w :
  key_post key = None ->
  redis (snd (sync_key key w)) = redis w
  ∧ ∃ e, log (snd (sync_key key w)) = (log w ++ [sync_error_line key e])%list.
Proof.
  intros Hk. pose proof (sync_key_own key w) as Hown.
  destruct (sync_update_undecodable key w Hk) as (e & w1 & Hu).
  rewrite Hu in Hown. destruct Hown as [Hr Hl]. eauto.
Qed.

Lemma for_each_sync_undecodable keys key w :
  key_post key = None ->
  redis (snd (for_each keys sync_key w)) !! key = redis w !! key
  ∧ (key ∈ keys -> ∃ e, sync_error_line key e ∈ log (snd (for_each keys sync_key w))).
Proof.
  intros Hk. revert w. induction keys as [|k keys IH]; intros w.
  { split; [done|]. by intros ?%elem_of_nil. }
  rewrite for_each_sync_cons. destruct (IH (snd (sync_key k w))) as [Hr Hl].
  split.
  - rewrite Hr. destruct (decide (k = key)) as [->|Hne].
    + by destruct (sync_key_undecodable key w Hk) as [-> _].
    + by apply sync_key_redis_other.
  - intros [<-|Hin]%elem_of_cons; [|by apply Hl].
    destruct (sync_key_undecodable key w Hk) as [_ [e He]].
    exists e. apply for_each_sync_log_mono. rewrite He.
    apply elem_of_app. right. by left.
Qed.

(** X4.  A pending post key whose last segment is not the text of an id is
    never drained and never dropped: after any number of runs of the job its
    counter is what it was, and every run whose enumeration succeeds logs its
    error line again. *)
Theorem undecodable_key_stays_forever (w : World) (key : string) :
  key_post key = None ->
  (forall n, redis (Nat.iter n (fun w => snd (sync_impressions_to_db w)) w) !! key
             = redis w !! key)
  ∧ (faults w RedisKeys "post:impressions:" = false ->
     key ∈ pending_post_keys w ->
     ∃ e, sync_error_line key e ∈ log (snd (sync_impressions_to_db w))).
Proof.
  intros Hk. split.
  - intros n. induction n as [|n IH]; [done|]. simpl. rewrite <- IH.
    set (wn := Nat.iter n _ w).
    destruct (faults wn RedisKeys "post:impressions:") eqn:Hf.
    + unfold sync_impressions_to_db, redis_keys, bind, guard. by rewrite Hf.
    + rewrite (sync_impressions_to_db_unfold wn Hf).
      by apply for_each_sync_undecodable.
  - intros Hf Hin. rewrite (sync_impressions_to_db_unfold w Hf).
    by apply for_each_sync_undecodable.
Qed.

(** X5.  The enumeration of the keys is outside the [try]: when Redis fails
    there, the job raises instead of returning, and has changed nothing. *)
Theorem sync_raises_when_enumeration_fails (w : World) :
  faults w RedisKeys "post:impressions:" = true ->
  sync_impressions_to_db w
  = (inl (StoreError "store call failed: post:impressions:"), w).
Proof.
  intros Hf. unfold sync_impressions_to_db, redis_keys, bind, guard.
  by rewrite Hf.
Qed.

End JobProperties.

(** * List reads as a whole *)

Section ListProperties.
Context `{RT : Runtime}.



(** ** The miss path to its end *)



(** ** A counter failure half-way *)



(** ** A list read, then the job *)





(** ** Signatures that coincide *)



End ListProperties.

(** * Clicks, the impressions task and the category list *)

Section ClickProperties.
Context `{RT : Runtime}.

(** ** IncrementPostClickView *)

Lemma postobjects_get_by_slug_run slug w :
  faults w DbQuery "post" = false ->
  postobjects_get_by_slug slug w
  = (match published_with_slug slug w with
     | [] => inl (DoesNotExist "Post matching query does not exist.")
     | [post] => inr post
     | _ => inl (MultipleObjectsReturned "get() returned more than one Post")
     end, w).
Proof.
  intros Hdb. unfold postobjects_get_by_slug.
  rewrite (bind_inr _ _ _ _ _ (postobjects_all_ok w Hdb)).
  unfold published_with_slug. by destruct (List.filter _ _) as [|post [|]].
Qed.

(** X11.  A click on a slug that no published post has is answered with
    [NotFound], and a body without the field [slug] with the [KeyError]
    itself; neither touches a store. *)
Theorem click_without_a_post (w : World) :
  (forall slug,
     faults w DbQuery "post" = false ->
     published_with_slug slug w = [] ->
     IncrementPostClickView_post (Some slug) w
     = (inl (NotFound "The requested post does not exist"), w))
  ∧ IncrementPostClickView_post None w = (inl (KeyError "'slug'"), w).
Proof.
  split; [|done]. intros slug Hdb Hnone.
  unfold IncrementPostClickView_post. unfold bind at 1.
  by rewrite (postobjects_get_by_slug_run slug w Hdb), Hnone.
Qed.

(** X12.  A click on the slug of exactly one published post, with the
    database answering: the row of the post, created if there was none, is
    stored with one click more, the same impressions and the rate of these
    counters; the answer carries the stored number of clicks. *)
Theorem click_counts_one (slug : string) (post : Post) (w : World) :
  healthy w -> table_keyed w ->
  published_with_slug slug w = [post] ->
  IncrementPostClickView_post (Some slug) w
  = (inr (ClickResponse "Click incremented successfully"
            (drained_clicks (post_id post) w + 1)),
     set_analytics (<[post_id post := clicked_row (post_id post) w]> (analytics w)) w)
  ∧ pa_clicks (clicked_row (post_id post) w) = (drained_clicks (post_id post) w + 1)%Z
  ∧ pa_impressions (clicked_row (post_id post) w) = drained (post_id post) w
  ∧ ctr_fresh (clicked_row (post_id post) w).
Proof.
  intros Hh Hkeyed Hone.
  assert (post ∈ posts w) as Hin.
  { assert (In post (published_with_slug slug w)) as Hp by (rewrite Hone; by left).
    unfold published_with_slug in Hp. rewrite !filter_In in Hp.
    apply list_elem_of_In. tauto. }
  split; [|by unfold clicked_row, drained_clicks, drained; destruct (analytics w !! _)].
  unfold IncrementPostClickView_post. unfold bind at 1.
  rewrite (postobjects_get_by_slug_run slug w (Hh _ _)), Hone.
  unfold get_or_create, increment_click, _update_click_through_rate, save_at,
    try_except, bind, guard, ret, raise, clicked_row, drained_clicks.
  rewrite (Hh DbGetOrCreate _). simpl.
  destruct (analytics w !! post_id post) as [a|] eqn:Ha; simpl.
  - assert (pa_post a = post_id post) as Hpost by (by apply (Hkeyed _ a)).
    rewrite Hpost, (Hh DbSaveRate _). done.
  - rewrite bool_decide_eq_true_2 by (by apply list_elem_of_fmap_2). simpl.
    rewrite (Hh DbSaveRate _). simpl.
    unfold set_analytics; simpl. by rewrite insert_insert_eq.
Qed.

(** ** increment_post_impressions *)


(** ** CategoryListView *)

Lemma categories_initial_ok parent_slug w :
  faults w DbQuery "category" = false ->
  categories_initial parent_slug w = (inr (category_rows parent_slug w), w).
Proof. intros H. unfold categories_initial, bind, guard. by rewrite H. Qed.

(** X14.  A hit of [CategoryListView.get]: an unexpired, non-empty cached
    list of categories is served as it is, whatever the tables hold by then,
    and, with Redis answering, every key gains as many impressions as the
    cached list has categories with that key, one for each category. *)
Theorem category_list_hit_serves_cached
    (req : ListRequest) (w : World) (c : Category) (l : list Category) :
  faults w CacheGet (category_list_cache_key req) = false ->
  cache_lookup (category_list_cache_key req) w = Some (CachedCategories (c :: l)) ->
  (forall q, q ∈ c :: l -> faults w RedisIncr (category_impressions_key q) = false) ->
  fst (CategoryListView_get req w)
  = page_answer CategoryPage (paginate Category (request_page req) (c :: l))
  ∧ forall k, pending k (snd (CategoryListView_get req w))
              = (pending k w
                 + Z.of_nat (length (filter (fun q => category_impressions_key q = k)
                                            (c :: l))))%Z.
Proof.
  intros Hget Hhit Hincr. rewrite (category_list_hit req w c l Hget Hhit Hincr).
  split; [done|]. intros k.
  exact (incr_all_fmap_lookup category_impressions_key (c :: l) (redis w) k).
Qed.


(** X16.  Whatever goes wrong in [CategoryListView.get] reaches the requester
    as the generic [APIException]: the handler never answers [NotFound], and
    a parent without categories is a 500 with the text of the [NotFound]. *)
Theorem category_list_never_answers_not_found (req : ListRequest) (w : World) :
  (forall e, fst (CategoryListView_get req w) = inl e ->
             ∃ e0, e = APIException ("An unexpected error occurred: " +:+ exn_str e0))
  ∧ (faults w CacheGet (category_list_cache_key req) = false ->
     cache_lookup (category_list_cache_key req) w = None ->
     faults w DbQuery "category" = false ->
     category_rows (q_parent_slug req) w = [] ->
     CategoryListView_get req w
     = (inl (APIException "An unexpected error occurred: No categories found."), w)).
Proof.
  split.
  - intros e. unfold CategoryListView_get, try_except, raise.
    destruct (CategoryListView_get_body req w) as [[e0|r] w1]; simpl; [|done].
    intros [= <-]. eauto.
  - intros Hget Hmiss Hdb Hrows.
    unfold CategoryListView_get, try_except, CategoryListView_get_body. cbv zeta.
    rewrite (bind_inr _ _ _ _ _ (cache_get_ok _ _ Hget)), Hmiss.
    lazy beta iota zeta.
    rewrite (bind_inr _ _ _ _ _ (categories_initial_ok _ _ Hdb)).
    by rewrite Hrows.
Qed.

End ClickProperties.

(** * The detail handlers, the views task and the generator *)

Section DetailProperties.
Context `{RT : Runtime}.

(** ** CategoryDetailView *)

Lemma get_category_or_404_run slug w :
  faults w DbQuery "category" = false ->
  get_category_or_404 slug w
  = (match categories_with_slug slug w with
     | [] => inl (NotFound "No Category matches the given query.")
     | [category] => inr category
     | _ => inl (MultipleObjectsReturned "get() returned more than one Category")
     end, w).
Proof.
  intros Hdb. unfold get_category_or_404, categories_with_slug, bind, guard.
  rewrite Hdb. by destruct (List.filter _ _) as [|c [|]].
Qed.

Lemma category_postobjects_ok category w :
  faults w DbQuery "post" = false ->
  category_postobjects category w = (inr (posts_of_category category w), w).
Proof. intros H. unfold category_postobjects, bind, guard. by rewrite H. Qed.

Lemma truthy_Some slug : truthy slug = true -> slug = Some (default "" slug).
Proof. by destruct slug. Qed.

(** X17.  [CategoryDetailView.get] never answers [NotFound].  Without a slug
    it answers with the error reply and touches no store.  With a slug that no
    category has, the 404 of [get_object_or_404] reaches the requester as the
    generic [APIException]; so does the [NotFound] raised for a category
    without published posts.  Neither caches anything. *)
Theorem category_detail_failures (slug p : option string) (w : World) :
  (forall e, fst (CategoryDetailView_get slug p w) = inl e ->
             ∃ e0, e = APIException ("An unexpected error occurred: " +:+ exn_str e0))
  ∧ (truthy slug = false ->
     CategoryDetailView_get slug p w = (inr (ErrorReply "Missing slug parameter"), w))
  ∧ (truthy slug = true ->
     faults w CacheGet (category_posts_cache_key (default "" slug) (default "1" p)) = false ->
     cache_lookup (category_posts_cache_key (default "" slug) (default "1" p)) w = None ->
     faults w DbQuery "category" = false ->
     (categories_with_slug (default "" slug) w = [] ->
      CategoryDetailView_get slug p w
      = (inl (APIException
                "An unexpected error occurred: No Category matches the given query."), w))
     ∧ (forall category,
          categories_with_slug (default "" slug) w = [category] ->
          faults w DbQuery "post" = false ->
          posts_of_category category w = [] ->
          CategoryDetailView_get slug p w
          = (inl (APIException
                    ("An unexpected error occurred: No posts found for category '"
                     +:+ category_name category +:+ "'")), w))).
Proof.
  split; [|split].
  - intros e. unfold CategoryDetailView_get, try_except, raise.
    destruct (CategoryDetailView_get_body slug p w) as [[e0|r] w1]; simpl; [|done].
    intros [= <-]. eauto.
  - intros Hslug. unfold CategoryDetailView_get, try_except, CategoryDetailView_get_body.
    cbv zeta. by rewrite Hslug.
  - intros Hslug Hget Hmiss Hdb.
    split.
    + intros Hnone.
      unfold CategoryDetailView_get, try_except, CategoryDetailView_get_body.
      cbv zeta. rewrite Hslug. lazy beta iota zeta delta [negb].
      rewrite (bind_inr _ _ _ _ _ (cache_get_ok _ _ Hget)), Hmiss.
      lazy beta iota zeta. unfold bind at 1.
      by rewrite (get_category_or_404_run _ _ Hdb), Hnone.
    + intros category Hone Hdbp Hposts.
      unfold CategoryDetailView_get, try_except, CategoryDetailView_get_body.
      cbv zeta. rewrite Hslug. lazy beta iota zeta delta [negb].
      rewrite (bind_inr _ _ _ _ _ (cache_get_ok _ _ Hget)), Hmiss.
      lazy beta iota zeta. unfold bind at 1.
      rewrite (get_category_or_404_run _ _ Hdb), Hone.
      rewrite (bind_inr _ _ _ _ _ (category_postobjects_ok _ _ Hdbp)).
      by rewrite Hposts.
Qed.

(** X18.  A miss of [CategoryDetailView.get] on the slug of exactly one
    category that has published posts, with every store answering: the answer
    is the page of the published posts of that category and of no other, they
    are cached for 300 seconds under [category_posts:<slug>:<page>], and one
    impression is counted for each under its post key, the keys that
    [sync_impressions_to_db] drains. *)
Theorem category_detail_miss_run
    (slug : string) (p : option string) (category : Category) (w : World) :
  healthy w ->
  slug ≠ "" ->
  cache_lookup (category_posts_cache_key slug (default "1" p)) w = None ->
  categories_with_slug slug w = [category] ->
  posts_of_category category w ≠ [] ->
  CategoryDetailView_get (Some slug) p w
  = (as_reply (page_answer PostPage
                 (paginate Post (default "1" p) (posts_of_category category w))),
     set_redis (incr_all (post_impressions_key <$> posts_of_category category w)
                  (redis w))
       (set_cache (<[category_posts_cache_key slug (default "1" p)
                     := (CachedPosts (posts_of_category category w),
                         (now w + 300)%Z)]> (cache w)) w))
  ∧ forall q, q ∈ posts_of_category category w ->
              q ∈ posts w ∧ post_category_id q = category_id category.
Proof.
  intros Hh Hslug Hmiss Hone Hposts. split.
  - assert (truthy (Some slug) = true) as Htruthy.
    { simpl. by rewrite (proj2 (String.eqb_neq _ _) Hslug). }
    unfold CategoryDetailView_get, try_except, CategoryDetailView_get_body.
    cbv zeta. rewrite Htruthy. lazy beta iota zeta delta [negb]. simpl default.
    rewrite (bind_inr _ _ _ _ _ (cache_get_ok _ _ (Hh _ _))), Hmiss.
    lazy beta iota zeta.
    unfold bind at 1. rewrite (get_category_or_404_run _ _ (Hh _ _)), Hone.
    rewrite (bind_inr _ _ _ _ _ (category_postobjects_ok _ _ (Hh _ _))).
    destruct (posts_of_category category w) as [|q0 l0] eqn:Hl; [done|].
    lazy beta iota zeta.
    rewrite (bind_inr _ _ _ _ _ (cache_set_ok _ _ _ _ (Hh _ _))).
    unfold incr_post_impressions.
    erewrite bind_inr by (apply for_each_incr_run; intros q _; apply Hh).
    unfold bind, lift, ret, raise, page_answer, as_reply.
    by destruct (paginate Post (default "1" p) (q0 :: l0)).
  - intros q Hq. unfold posts_of_category in Hq.
    apply list_elem_of_In in Hq. rewrite !filter_In in Hq.
    destruct Hq as [[Hin _] Hcat]. split; [by apply list_elem_of_In|].
    by apply bool_decide_eq_true in Hcat.
Qed.

(** ** PostDetailView *)

(** X19.  [PostDetailView.get] answers a missing or empty slug, and a slug
    that no published post has, with [NotFound] itself, the 404: unlike the
    list handlers it maps the missing row before the generic clause.  Nothing
    is cached and no view task is put on the broker, whatever the broker
    would do. *)
Theorem post_detail_not_found
    (delay : string -> string -> M unit) (ip_address : string)
    (slug : option string) (w : World) :
  (truthy slug = false ->
   PostDetailView_get delay ip_address slug w
   = (inl (NotFound "A valid slug must be provided"), w))
  ∧ (truthy slug = true ->
     faults w CacheGet (post_detail_cache_key (default "" slug)) = false ->
     cache_lookup (post_detail_cache_key (default "" slug)) w = None ->
     faults w DbQuery "post" = false ->
     published_with_slug (default "" slug) w = [] ->
     PostDetailView_get delay ip_address slug w
     = (inl (NotFound "The requested post does not exist"), w)).
Proof.
  split.
  - intros Hslug. unfold PostDetailView_get. by rewrite Hslug.
  - intros Hslug Hget Hmiss Hdb Hnone.
    unfold PostDetailView_get, PostDetailView_get_body. rewrite Hslug.
    lazy beta iota zeta delta [negb].
    rewrite (bind_inr _ _ _ _ _ (cache_get_ok _ _ Hget)), Hmiss.
    lazy beta iota zeta. unfold bind at 1.
    by rewrite (postobjects_get_by_slug_run _ _ Hdb), Hnone.
Qed.

(** X20.  What [PostDetailView.get] serves when the broker takes the task.
    On a hit it is the post as it was cached, whatever the tables hold now,
    and the view task is called with the cached slug.  On a miss over exactly
    one published post with the slug it is that post, which is cached for 300
    seconds before the task is called. *)
Theorem post_detail_serves
    (delay : string -> string -> M unit) (ip_address slug : string) (w w' : World) :
  slug ≠ "" ->
  faults w CacheGet (post_detail_cache_key slug) = false ->
  (forall cached_post,
     cache_lookup (post_detail_cache_key slug) w = Some (CachedPosts [cached_post]) ->
     delay (post_slug cached_post) ip_address w = (inr tt, w') ->
     PostDetailView_get delay ip_address (Some slug) w
     = (inr (PostDetail cached_post), w'))
  ∧ (forall post,
       cache_lookup (post_detail_cache_key slug) w = None ->
       faults w DbQuery "post" = false ->
       published_with_slug slug w = [post] ->
       faults w CacheSet (post_detail_cache_key slug) = false ->
       delay (post_slug post) ip_address
         (set_cache (<[post_detail_cache_key slug
                       := (CachedPosts [post], (now w + 300)%Z)]> (cache w)) w)
       = (inr tt, w') ->
       PostDetailView_get delay ip_address (Some slug) w
       = (inr (PostDetail post), w')).
Proof.
  intros Hslug Hget.
  assert (truthy (Some slug) = true) as Htruthy.
  { simpl. by rewrite (proj2 (String.eqb_neq _ _) Hslug). }
  split.
  - intros c Hhit Hdelay.
    unfold PostDetailView_get, PostDetailView_get_body. rewrite Htruthy.
    lazy beta iota zeta delta [negb]. simpl default.
    rewrite (bind_inr _ _ _ _ _ (cache_get_ok _ _ Hget)), Hhit.
    lazy beta iota zeta. by rewrite (bind_inr _ _ _ _ _ Hdelay).
  - intros post Hmiss Hdb Hone Hset Hdelay.
    unfold PostDetailView_get, PostDetailView_get_body. rewrite Htruthy.
    lazy beta iota zeta delta [negb]. simpl default.
    rewrite (bind_inr _ _ _ _ _ (cache_get_ok _ _ Hget)), Hmiss.
    lazy beta iota zeta. unfold bind at 1.
    rewrite (postobjects_get_by_slug_run _ _ Hdb), Hone.
    rewrite (bind_inr _ _ _ _ _ (cache_set_ok _ _ _ _ Hset)).
    by rewrite (bind_inr _ _ _ _ _ Hdelay).
Qed.

(** X21.  The call of the view task is inside the [try]: when the broker
    refuses it on a hit, the requester gets the generic [APIException]
    although the cached post was at hand. *)
Theorem post_detail_broker_failure_reaches_requester
    (delay : string -> string -> M unit) (ip_address slug : string)
    (cached_post : Post) (e : exn) (w w' : World) :
  slug ≠ "" ->
  faults w CacheGet (post_detail_cache_key slug) = false ->
  cache_lookup (post_detail_cache_key slug) w = Some (CachedPosts [cached_post]) ->
  delay (post_slug cached_post) ip_address w = (inl e, w') ->
  (forall msg, e ≠ DoesNotExist msg) ->
  PostDetailView_get delay ip_address (Some slug) w
  = (inl (APIException ("An unexpected error occurred: " +:+ exn_str e)), w').
Proof.
  intros Hslug Hget Hhit Hdelay Hexn.
  assert (truthy (Some slug) = true) as Htruthy.
  { simpl. by rewrite (proj2 (String.eqb_neq _ _) Hslug). }
  unfold PostDetailView_get, PostDetailView_get_body. rewrite Htruthy.
  lazy beta iota zeta delta [negb]. simpl default.
  rewrite (bind_inr _ _ _ _ _ (cache_get_ok _ _ Hget)), Hhit.
  lazy beta iota zeta. unfold bind. rewrite Hdelay.
  destruct e; try done. by destruct (Hexn msg).
Qed.

(** ** increment_post_views_task *)

(** X22.  The task [increment_post_views_task] returns in every world,
    whatever [increment_view] does.  For a slug that no post has it logs its
    error line and changes nothing else: no row is created and
    [increment_view] is not run. *)
Theorem increment_post_views_task_isolated
    (increment_view : PostAnalytics -> string -> M unit)
    (slug ip_address : string) (w : World) :
  fst (increment_post_views_task increment_view slug ip_address w) = inr tt
  ∧ (faults w DbQuery "post" = false ->
     posts_with_slug slug w = [] ->
     increment_post_views_task increment_view slug ip_address w
     = (inr tt,
        set_log (log w ++ ["Error incrementing views for Post slug " +:+ slug
                           +:+ ": Post matching query does not exist."]) w)).
Proof.
  split.
  - unfold increment_post_views_task, try_except, print.
    by destruct (bind _ _ w) as [[e|[]] w1].
  - intros Hdb Hnone.
    unfold increment_post_views_task, try_except, objects_get_by_slug, print.
    unfold bind, guard. rewrite Hdb. fold (posts_with_slug slug w).
    by rewrite Hnone.
Qed.

(** ** GenerateFakeAnalyticsView *)

(** The loop body for one post: its row, created if need be, is stored with
    the drawn counters and their rate. *)
Lemma generate_analytics_run rng post w :
  healthy w -> table_keyed w -> post ∈ posts w ->
  ∃ a, generate_analytics rng post w
       = (inr tt, set_analytics (<[post_id post := a]> (analytics w)) w)
       ∧ pa_post a = post_id post
       ∧ pa_views a = draw_views (rng post)
       ∧ pa_impressions a = (draw_views (rng post) + draw_extra (rng post))%Z
       ∧ pa_clicks a = draw_clicks (rng post)
       ∧ ctr_fresh a.
Proof.
  intros Hh Hkeyed Hin.
  unfold generate_analytics, get_or_create, _update_click_through_rate, save, save_at,
    bind, guard, ret.
  rewrite (Hh DbGetOrCreate _).
  destruct (analytics w !! post_id post) as [a|] eqn:Ha; simpl.
  - assert (pa_post a = post_id post) as Hpost by (by apply (Hkeyed _ a)).
    rewrite Hpost. repeat (rewrite Hh; simpl). rewrite Hpost.
    eexists. split.
    { unfold set_analytics; simpl. rewrite insert_insert_eq. reflexivity. }
    by repeat split.
  - rewrite bool_decide_eq_true_2 by (by apply list_elem_of_fmap_2). simpl.
    repeat (rewrite Hh; simpl).
    eexists. split.
    { unfold set_analytics; simpl. rewrite !insert_insert_eq. reflexivity. }
    by repeat split.
Qed.

Lemma generated_row_of_draw d a :
  draw_in_range d ->
  pa_views a = draw_views d ->
  pa_impressions a = (draw_views d + draw_extra d)%Z ->
  pa_clicks a = draw_clicks d ->
  ctr_fresh a ->
  generated_row a.
Proof.
  unfold draw_in_range, generated_row. intros (? & ? & ?) -> -> -> ?.
  repeat split; try done; lia.
Qed.

(** The loop over posts of the table. *)
Lemma for_each_generate rng l w :
  healthy w -> table_keyed w ->
  (forall p, p ∈ l -> p ∈ posts w ∧ draw_in_range (rng p)) ->
  let r := for_each l (generate_analytics rng) w in
  fst r = inr tt
  ∧ healthy (snd r) ∧ table_keyed (snd r) ∧ posts (snd r) = posts w
  ∧ redis (snd r) = redis w ∧ cache (snd r) = cache w ∧ log (snd r) = log w
  ∧ (forall u, (∃ a, analytics w !! u = Some a ∧ generated_row a) ->
               ∃ a, analytics (snd r) !! u = Some a ∧ generated_row a)
  ∧ (forall p, p ∈ l -> ∃ a, analytics (snd r) !! post_id p = Some a ∧ generated_row a).
Proof.
  revert w. induction l as [|post l IH]; intros w Hh Hkeyed Hl.
  { simpl. repeat split; try done. intros p Hp. by apply elem_of_nil in Hp. }
  destruct (Hl post) as [Hin Hrange]; [by left|].
  destruct (generate_analytics_run rng post w Hh Hkeyed Hin)
    as (a & Hrun & Hpost & Hv & Hi & Hc & Hfresh).
  pose proof (generated_row_of_draw _ a Hrange Hv Hi Hc Hfresh) as Hgen.
  set (w1 := set_analytics (<[post_id post := a]> (analytics w)) w) in *.
  assert (healthy w1) as Hh1 by (intros s arg; apply Hh).
  assert (table_keyed w1) as Hkeyed1 by (by apply table_keyed_insert).
  destruct (IH w1 Hh1 Hkeyed1) as (Hret & Hh' & Hk' & Hposts & Hr & Hc' & Hlog & Hkeep & Hnew).
  { intros p Hp. apply Hl. by right. }
  cbv zeta. simpl. unfold bind. rewrite Hrun.
  repeat split; try done.
  - intros u (a0 & Ha0 & Hg0). apply Hkeep. simpl.
    destruct (decide (post_id post = u)) as [<-|Hne].
    + exists a. by rewrite lookup_insert_eq.
    + exists a0. by rewrite lookup_insert_ne.
  - intros p [->|Hp]%elem_of_cons; [|by apply Hnew].
    apply Hkeep. exists a. simpl. by rewrite lookup_insert_eq.
Qed.

(** X23.  [GenerateFakeAnalyticsView.get] answers 400 and writes nothing
    when there is no post.  Otherwise, with the database answering and every
    draw within the ranges of its [randint], it answers with the number of
    posts and leaves every post a row with 50 to 1000 views, 100 to 2000 more
    impressions than views, at most as many clicks as views, and the rate of
    these counters; Redis, the cache and the log are untouched. *)
Theorem generated_rows_are_consistent (rng : Post -> Draw) (w : World) :
  (faults w DbQuery "post" = false -> posts w = [] ->
   GenerateFakeAnalyticsView_get rng w
   = (inr (BadRequest "No hay posts disponibles para generar analíticas"), w))
  ∧ (healthy w -> table_keyed w -> posts w ≠ [] ->
     (forall p, p ∈ posts w -> draw_in_range (rng p)) ->
     let r := GenerateFakeAnalyticsView_get rng w in
     fst r = inr (Generated (length (posts w)))
     ∧ redis (snd r) = redis w ∧ cache (snd r) = cache w ∧ log (snd r) = log w
     ∧ forall p, p ∈ posts w ->
         ∃ a, analytics (snd r) !! post_id p = Some a ∧ generated_row a).
Proof.
  split.
  - intros Hdb Hnone. unfold GenerateFakeAnalyticsView_get, objects_all, bind, guard, ret.
    by rewrite Hdb, Hnone.
  - intros Hh Hkeyed Hposts Hrange.
    destruct (for_each_generate rng (posts w) w Hh Hkeyed)
      as (Hret & _ & _ & _ & Hr & Hc & Hlog & _ & Hnew).
    { intros p Hp. split; [done|by apply Hrange]. }
    assert (GenerateFakeAnalyticsView_get rng w
            = (inr (Generated (length (posts w))),
               snd (for_each (posts w) (generate_analytics rng) w))) as ->.
    { unfold GenerateFakeAnalyticsView_get, objects_all, bind, guard, ret.
      rewrite (Hh DbQuery "post").
      destruct (posts w) as [|p0 l0] eqn:Hl; [done|]. rewrite <- Hl in *.
      by destruct (for_each (posts w) (generate_analytics rng) w) as [[e|[]] w1]. }
    done.
Qed.

(** ** The category filter and the order of the tokens *)

(** X24.  The category filter depends on the set of tokens only: requests
    whose token lists have the same members, in whatever order and however
    often repeated, filter the rows alike. *)
Theorem category_filter_ignores_token_order
    (search : string) (tokens1 tokens2 : list string) (rows : list Post) :
  (forall t, t ∈ tokens1 ↔ t ∈ tokens2) ->
  post_list_filter search tokens1 rows = post_list_filter search tokens2 rows.
Proof.
  intros Hsame. unfold post_list_filter. cbv zeta.
  destruct tokens1 as [|t1 l1] eqn:H1, tokens2 as [|t2 l2] eqn:H2; [done| | |].
  - exfalso. apply (elem_of_nil t2), Hsame. by left.
  - exfalso. apply (elem_of_nil t1), Hsame. by left.
  - rewrite <- H1, <- H2 in *. apply filter_ext. intros p.
    apply eq_true_iff_eq.
    rewrite (category_queries_holds tokens1 p) by (by rewrite H1).
    rewrite (category_queries_holds tokens2 p) by (by rewrite H2).
    split; intros (t & Ht & Hm); exists t; (split; [by apply Hsame|done]).
Qed.

End DetailProperties.

(** * The further theorems, applied *)

Section MoreWitnesses.
Import Demo DemoMore.

Lemma list_read_key_names_its_post_witness :
  String.prefix "post:impressions:" (post_impressions_key hello) = true
  ∧ key_post (post_impressions_key hello) = Some (post_id hello).
Proof.
  apply (list_read_key_names_its_post hello).
  - reflexivity.
  - reflexivity.
Defined.



Lemma undecodable_key_stays_forever_witness :
  key_post "post:impressions:gone" = None
  ∧ redis (Nat.iter 3 (fun w => snd (sync_impressions_to_db w)) blog_two_pending)
      !! "post:impressions:gone"
    = redis blog_two_pending !! "post:impressions:gone"
  ∧ ∃ e, sync_error_line "post:impressions:gone" e
         ∈ log (snd (sync_impressions_to_db blog_two_pending)).
Proof.
  assert (Hk : key_post "post:impressions:gone" = None) by reflexivity.
  split; [exact Hk|].
  split.
  - apply (proj1 (undecodable_key_stays_forever blog_two_pending _ Hk) 3%nat).
  - apply (proj2 (undecodable_key_stays_forever blog_two_pending _ Hk)).
    + reflexivity.
    + apply (bool_decide_unpack _). vm_compute. exact I.
Defined.

Lemma sync_raises_when_enumeration_fails_witness :
  sync_impressions_to_db (with_faults keys_fail blog_pending)
  = (inl (StoreError "store call failed: post:impressions:"),
     with_faults keys_fail blog_pending).
Proof.
  apply (sync_raises_when_enumeration_fails (with_faults keys_fail blog_pending)).
  reflexivity.
Defined.






(** Without the earlier request, the second one selects both posts. *)
Example colon_in_sorting_alone :
  fst (PostListView_get (colon_in_sorting "Rocq" " a primer" "newest" plain_request) library)
  = inr (PostPage [guide; notes]).
Proof. by vm_compute. Qed.

Lemma click_without_a_post_witness :
  IncrementPostClickView_post (Some "nope") blog
  = (inl (NotFound "The requested post does not exist"), blog).
Proof.
  apply (click_without_a_post blog).
  - reflexivity.
  - reflexivity.
Defined.

Lemma click_counts_one_witness :
  fst (IncrementPostClickView_post (Some "hello") blog_pending)
  = inr (ClickResponse "Click incremented successfully" 2).
Proof.
  rewrite (proj1 (click_counts_one "hello" hello blog_pending
                    (fun _ _ => eq_refl)
                    ltac:(unfold table_keyed; apply (bool_decide_unpack _);
                          vm_compute; exact I)
                    eq_refl)).
  reflexivity.
Defined.


Lemma category_list_hit_serves_cached_witness :
  fst (CategoryListView_get plain_request blog_after_category_list)
  = page_answer CategoryPage (paginate Category (request_page plain_request) [fiction]).
Proof.
  apply (category_list_hit_serves_cached plain_request blog_after_category_list fiction []).
  - reflexivity.
  - vm_compute. reflexivity.
  - intros q _. reflexivity.
Defined.


Lemma category_list_never_answers_not_found_witness :
  CategoryListView_get plain_request empty_world
  = (inl (APIException "An unexpected error occurred: No categories found."),
     empty_world).
Proof.
  apply (category_list_never_answers_not_found plain_request empty_world).
  - reflexivity.
  - reflexivity.
  - reflexivity.
  - reflexivity.
Defined.

Lemma category_detail_failures_witness :
  CategoryDetailView_get (Some "nope") None blog
  = (inl (APIException
            "An unexpected error occurred: No Category matches the given query."), blog).
Proof.
  apply (category_detail_failures (Some "nope") None blog).
  - reflexivity.
  - reflexivity.
  - reflexivity.
  - reflexivity.
  - reflexivity.
Defined.

Lemma category_detail_miss_run_witness :
  fst (CategoryDetailView_get (Some "fiction") None blog)
  = as_reply (page_answer PostPage
                (paginate Post (default "1" None) (posts_of_category fiction blog))).
Proof.
  rewrite (proj1 (category_detail_miss_run "fiction" None fiction blog
                    (fun _ _ => eq_refl)
                    ltac:(discriminate) eq_refl eq_refl ltac:(vm_compute; discriminate))).
  reflexivity.
Defined.

Lemma post_detail_not_found_witness :
  PostDetailView_get delay_ok "10.0.0.1" (Some "nope") blog
  = (inl (NotFound "The requested post does not exist"), blog).
Proof.
  apply (post_detail_not_found delay_ok "10.0.0.1" (Some "nope") blog).
  - reflexivity.
  - reflexivity.
  - reflexivity.
  - reflexivity.
  - reflexivity.
Defined.

Lemma post_detail_serves_witness :
  PostDetailView_get delay_ok "10.0.0.1" (Some "hello") blog_detail_cached
  = (inr (PostDetail hello), blog_detail_cached).
Proof.
  refine (proj1 (post_detail_serves delay_ok "10.0.0.1" "hello" blog_detail_cached
                   blog_detail_cached _ _) hello _ _).
  - discriminate.
  - reflexivity.
  - vm_compute. reflexivity.
  - reflexivity.
Defined.

Lemma post_detail_broker_failure_reaches_requester_witness :
  PostDetailView_get delay_down "10.0.0.1" (Some "hello") blog_detail_cached
  = (inl (APIException "An unexpected error occurred: broker unreachable"),
     blog_detail_cached).
Proof.
  apply (post_detail_broker_failure_reaches_requester delay_down "10.0.0.1" "hello"
           hello (StoreError "broker unreachable") blog_detail_cached blog_detail_cached).
  - discriminate.
  - reflexivity.
  - vm_compute. reflexivity.
  - reflexivity.
  - discriminate.
Defined.

Lemma increment_post_views_task_isolated_witness :
  increment_post_views_task increment_view_fails "nope" "10.0.0.1" blog
  = (inr tt,
     set_log (log blog ++ ["Error incrementing views for Post slug " +:+ "nope"
                           +:+ ": Post matching query does not exist."]) blog).
Proof.
  apply (increment_post_views_task_isolated increment_view_fails "nope" "10.0.0.1" blog).
  - reflexivity.
  - reflexivity.
Defined.

Lemma generated_rows_are_consistent_witness :
  fst (GenerateFakeAnalyticsView_get fixed_draw blog) = inr (Generated (length (posts blog))).
Proof.
  apply (generated_rows_are_consistent fixed_draw blog).
  - intros s arg. reflexivity.
  - unfold table_keyed. apply (bool_decide_unpack _). vm_compute. exact I.
  - discriminate.
  - intros p _. unfold draw_in_range. simpl. lia.
Defined.

Lemma category_filter_ignores_token_order_witness :
  post_list_filter "" ["3"; "essays"; "3"] [hello; second]
  = post_list_filter "" ["essays"; "3"] [hello; second].
Proof.
  apply (category_filter_ignores_token_order "" ["3"; "essays"; "3"] ["essays"; "3"]
           [hello; second]).
  intros t. rewrite !elem_of_cons, !elem_of_nil. tauto.
Defined.

End MoreWitnesses.
